(** * Moderation cog of bolt: a shallow embedding of [bolt/cogs/mod/cog.py]

    The command bodies of the [Mod] cog are embedded as functions in a small
    state-and-exception monad over a [World] that holds everything the
    commands talk to: the infraction table behind [self.bot.db], the bot's
    user cache behind [self.bot.get_user], the message history of the
    invoking channel, the log of platform requests and the embeds passed to
    [ctx.send].

    Python [int] is [Z] and Python [str] is [string], the UTF-8 bytes of the
    text (an occurrence of one valid text inside another is the same on
    bytes and on code points).  The permission decorators run before a
    command body and are not part of the bodies embedded here.

    The platform and the store are collaborators of the cog; they are
    modelled by what the cog relies on.  A platform request is either
    refused, with an exception, or carried out; a kick and a ban are single
    requests, refused with no effect, while a purge is a scan followed by
    deletions and can be refused part-way.  [ctx.send] and the statements
    that reach the table always go through. *)

From Stdlib Require Import ZArith String Ascii DecimalString.
From stdpp Require Import base decidable option list gmap strings sorting.

Local Open Scope string_scope.
Local Open Scope list_scope.
Local Open Scope Z_scope.

(** ** Python strings and truthiness *)

(** [str(n)] for an [int]. *)
Definition str_int (n : Z) : string := NilZero.string_of_int (Z.to_int n).

(** [a or b] on strings: the empty string is falsy. *)
Definition str_or (a b : string) : string :=
  match a with
  | EmptyString => b
  | String _ _ => a
  end.

(** [sep.join(parts)]. *)
Fixpoint str_join (sep : string) (parts : list string) : string :=
  match parts with
  | [] => ""
  | [p] => p
  | p :: rest => p +:+ sep +:+ str_join sep rest
  end.

(** [needle in haystack] for strings: [needle] occurs at some offset of
    [haystack], compared character by character. *)
Fixpoint str_startswith (needle haystack : string) : bool :=
  match needle, haystack with
  | EmptyString, _ => true
  | String a needle', String b haystack' =>
      if Ascii.eqb a b then str_startswith needle' haystack' else false
  | String _ _, EmptyString => false
  end.

Fixpoint str_contains (needle haystack : string) : bool :=
  if str_startswith needle haystack then true
  else match haystack with
       | EmptyString => false
       | String _ haystack' => str_contains needle haystack'
       end.

(** [s.title()] restricted to ASCII letters: a letter that follows a
    non-letter is upper-cased, every other letter is lower-cased. *)
Definition is_upper (c : ascii) : bool :=
  let n := nat_of_ascii c in (65 <=? n)%nat && (n <=? 90)%nat.
Definition is_lower (c : ascii) : bool :=
  let n := nat_of_ascii c in (97 <=? n)%nat && (n <=? 122)%nat.
Definition to_upper (c : ascii) : ascii :=
  if is_lower c then ascii_of_nat (nat_of_ascii c - 32) else c.
Definition to_lower (c : ascii) : ascii :=
  if is_upper c then ascii_of_nat (nat_of_ascii c + 32) else c.

Fixpoint str_title_from (after_letter : bool) (s : string) : string :=
  match s with
  | EmptyString => EmptyString
  | String c s' =>
      let cased := is_upper c || is_lower c in
      String (if after_letter then to_lower c else to_upper c)
             (str_title_from cased s')
  end.
Definition str_title (s : string) : string := str_title_from false s.

(** ** Data model *)

(** [datetime] values are kept as the number of microseconds since the
    epoch; comparison of two datetimes is comparison of these numbers. *)
Definition datetime := Z.

(** The members of [InfractionType], as the keys of
    [INFRACTION_TYPE_EMOJI] list them. *)
Inductive InfractionType := note_t | warning_t | mute_t | kick_t | ban_t.

Global Instance InfractionType_eq_dec : EqDecision InfractionType.
Proof. solve_decision. Defined.

(** Modelled from the spec: the enum declaration ([.types]) is not part of
    the sources at hand; the member values are the lower-case names of the
    closed set note, warning, mute, kick, ban. *)
Definition type_value (t : InfractionType) : string :=
  match t with
  | note_t => "note"
  | warning_t => "warning"
  | mute_t => "mute"
  | kick_t => "kick"
  | ban_t => "ban"
  end.

(** [str(t)] of an enum member. *)
Definition str_type (t : InfractionType) : string :=
  "InfractionType." +:+ type_value t.

(** Position of a member in the declaration, the order an [ORDER BY] on the
    enum column follows. *)
Definition type_rank (t : InfractionType) : Z :=
  match t with
  | note_t => 0
  | warning_t => 1
  | mute_t => 2
  | kick_t => 3
  | ban_t => 4
  end.

Definition INFRACTION_TYPE_EMOJI (t : InfractionType) : string :=
  match t with
  | note_t => "📔"
  | warning_t => "⚠"
  | mute_t => "🔇"
  | kick_t => "👢"
  | ban_t => "🔨"
  end.

Module Role.
Record t := { position : Z }.
End Role.

Module User.
Record t := {
  id : Z;
  name : string;
  discriminator : string;
  avatar_url : string
}.
(** [str(user)]. *)
Definition str (u : t) : string := name u +:+ "#" +:+ discriminator u.
End User.

Module Member.
Record t := { user : User.t; top_role : Role.t }.
Definition id (m : t) : Z := User.id (user m).
Definition avatar_url (m : t) : string := User.avatar_url (user m).
Definition str (m : t) : string := User.str (user m).
End Member.

Module Guild.
Record t := { id : Z; name : string; me : Member.t }.
End Guild.

Module Message.
Record t := { id : Z; author : User.t; content : string }.
End Message.

Global Instance User_eq_dec : EqDecision User.t.
Proof. solve_decision. Defined.
Global Instance Message_eq_dec : EqDecision Message.t.
Proof. solve_decision. Defined.

(** The invocation context: [ctx.message.guild] is [ctx.guild],
    [ctx.message.author] is [ctx.author], and [ctx.message.channel] is the
    channel whose history the [World] holds. *)
Module Context.
Record t := { guild : Guild.t; author : Member.t }.
Definition set_author (a : Member.t) (ctx : t) : t :=
  {| guild := guild ctx; author := a |}.
End Context.

(** A row of the [infraction] table. *)
Module Infraction.
Record t := {
  id : Z;
  type : InfractionType;
  guild_id : Z;
  user_id : Z;
  moderator_id : Z;
  reason : string;
  created_on : datetime;
  edited_on : option datetime
}.
End Infraction.

(** ** Embeds *)

Inductive Colour := red | green | blue | colour_value (v : Z).

Module Embed.
Record footer_t := { text : string; icon_url : option string }.
Record field_t := { name : string; value : string; inline : bool }.
Record t := {
  title : string;
  description : option string;
  colour : Colour;
  footer : option footer_t;
  fields : list field_t
}.

Definition make (title : string) (description : option string)
    (colour : Colour) : t :=
  {| title := title; description := description; colour := colour;
     footer := None; fields := [] |}.

Definition set_footer (text : string) (icon_url : option string) (e : t) : t :=
  {| title := title e; description := description e; colour := colour e;
     footer := Some {| text := text; icon_url := icon_url |};
     fields := fields e |}.

Definition set_description (d : string) (e : t) : t :=
  {| title := title e; description := Some d; colour := colour e;
     footer := footer e; fields := fields e |}.

Definition add_field (name value : string) (inline : bool) (e : t) : t :=
  {| title := title e; description := description e; colour := colour e;
     footer := footer e;
     fields := fields e ++ [{| name := name; value := value; inline := inline |}] |}.
End Embed.

(** ** The world a command runs in *)

Inductive Exception :=
| Forbidden
| NotFound
| HTTPException
| AttributeError (msg : string)
| TypeError (msg : string).

(** Requests sent to the platform.  The [check] predicate of a purge is
    evaluated on the client and is not part of the request. *)
Inductive Request :=
| GuildKick (guild user : Z) (reason : string)
| GuildBan (guild user : Z) (reason : string) (delete_message_days : Z)
| ChannelPurge (limit : Z).

(** Modelled from the spec: the table declaration ([.models]) is not part
    of the sources at hand.  The store assigns [id] from a monotonic
    sequence, [created_on] is set once at insert, and [edited_on] is null
    until an update statement touches the row, when it takes the current
    time. *)
Record Database := {
  infraction_db : list Infraction.t;
  next_id : Z
}.

Record World := {
  db : Database;                      (* self.bot.db *)
  utcnow : datetime;                  (* the clock *)
  users : gmap Z User.t;              (* the cache behind self.bot.get_user *)
  history : list Message.t;           (* ctx.message.channel, newest first *)
  fault : Request → option Exception; (* requests the platform refuses *)
  progress : Request → nat;           (* deletions done before a refusal *)
  requests : list Request;            (* requests the platform carried out *)
  sent : list Embed.t                 (* embeds passed to ctx.send *)
}.

Definition set_db (d : Database) (w : World) : World :=
  {| db := d; utcnow := utcnow w; users := users w; history := history w;
     fault := fault w; progress := progress w; requests := requests w;
     sent := sent w |}.
Definition set_history (h : list Message.t) (w : World) : World :=
  {| db := db w; utcnow := utcnow w; users := users w; history := h;
     fault := fault w; progress := progress w; requests := requests w;
     sent := sent w |}.
Definition log_request (r : Request) (w : World) : World :=
  {| db := db w; utcnow := utcnow w; users := users w; history := history w;
     fault := fault w; progress := progress w; requests := requests w ++ [r];
     sent := sent w |}.
Definition log_sent (e : Embed.t) (w : World) : World :=
  {| db := db w; utcnow := utcnow w; users := users w; history := history w;
     fault := fault w; progress := progress w; requests := requests w;
     sent := sent w ++ [e] |}.

(** ** Commands: state passing with exceptions *)

Inductive Outcome (A : Type) :=
| Returned (a : A)
| Raised (e : Exception).
Arguments Returned {A} a.
Arguments Raised {A} e.

Definition Cmd (A : Type) : Type := World → Outcome A * World.

Global Instance Cmd_ret : MRet Cmd := λ A a w, (Returned a, w).
Global Instance Cmd_bind : MBind Cmd := λ A B k c w,
  match c w with
  | (Returned a, w') => k a w'
  | (Raised e, w') => (Raised e, w')
  end.

Definition raise {A} (e : Exception) : Cmd A := λ w, (Raised e, w).

(** [await ctx.send(embed=e)]. *)
Definition send (e : Embed.t) : Cmd unit := λ w, (Returned (), log_sent e w).

(** A request either fails with the exception the platform answers, leaving
    everything as it was, or is carried out and logged. *)
Definition request (r : Request) : Cmd unit := λ w,
  match fault w r with
  | Some e => (Raised e, w)
  | None => (Returned (), log_request r w)
  end.

(** [await guild.kick(member, reason=...)]. *)
Definition guild_kick (g : Guild.t) (m : Member.t) (reason : string) : Cmd unit :=
  request (GuildKick (Guild.id g) (Member.id m) reason).

(** [await guild.ban(member, reason=..., delete_message_days=...)]. *)
Definition guild_ban (g : Guild.t) (m : Member.t) (reason : string)
    (delete_message_days : Z) : Cmd unit :=
  request (GuildBan (Guild.id g) (Member.id m) reason delete_message_days).

(** The scanned messages once the first [k] of those that satisfy [check]
    are deleted. *)
Fixpoint delete_matching (k : nat) (check : Message.t → bool)
    (scanned : list Message.t) : list Message.t :=
  match scanned with
  | [] => []
  | m :: rest =>
      if check m then
        match k with
        | O => m :: rest
        | S k' => delete_matching k' check rest
        end
      else m :: delete_matching k check rest
  end.

(** [await channel.purge(limit=..., check=...)]: the newest [limit]
    messages are scanned, those that satisfy [check] are deleted and
    returned; a limit below one scans nothing.  The purge is a scan
    followed by deletions, so a purge the platform refuses raises with the
    deletions done so far in effect: some of the messages to delete, never
    all of them, are gone. *)
Definition channel_purge (limit : Z) (check : Message.t → bool)
    : Cmd (list Message.t) := λ w,
  match fault w (ChannelPurge limit) with
  | Some e =>
      let scanned := take (Z.to_nat limit) (history w) in
      let older := drop (Z.to_nat limit) (history w) in
      let matching := filter (λ m, check m = true) scanned in
      let done := Nat.min (progress w (ChannelPurge limit)) (pred (length matching)) in
      (Raised e, set_history (delete_matching done check scanned ++ older) w)
  | None =>
      let scanned := take (Z.to_nat limit) (history w) in
      let older := drop (Z.to_nat limit) (history w) in
      (Returned (filter (λ m, check m = true) scanned),
       log_request (ChannelPurge limit)
         (set_history (filter (λ m, check m ≠ true) scanned ++ older) w))
  end.

(** [self.bot.get_user(id)]. *)
Definition get_user (id : Z) : Cmd (option User.t) := λ w,
  (Returned (users w !! id), w).

(** Attribute access [user.id] on a value that may be [None]. *)
Definition getattr_id (u : option User.t) : Cmd Z :=
  match u with
  | Some u => mret (User.id u)
  | None => raise (AttributeError "'NoneType' object has no attribute 'id'")
  end.

(** ** Statements on the infraction table *)

(** [infraction_db.insert().values(...)]: returns the inserted primary
    key. *)
Definition db_insert (type : InfractionType) (guild_id user_id moderator_id : Z)
    (reason : string) : Cmd Z := λ w,
  let pk := next_id (db w) in
  let row := {| Infraction.id := pk; Infraction.type := type;
                Infraction.guild_id := guild_id; Infraction.user_id := user_id;
                Infraction.moderator_id := moderator_id;
                Infraction.reason := reason;
                Infraction.created_on := utcnow w;
                Infraction.edited_on := None |} in
  (Returned pk,
   set_db {| infraction_db := infraction_db (db w) ++ [row];
             next_id := pk + 1 |} w).

(** [statement.where(...)] with the criteria as written in the call.  The
    awaited results of [self.bot.db] are those of SQLAlchemy before 1.4,
    whose [where] takes one criterion: a call with several raises
    [TypeError] before any statement is built. *)
Definition where_ (criteria : list (Infraction.t → bool))
    : Cmd (Infraction.t → bool) :=
  match criteria with
  | [whereclause] => mret whereclause
  | [] =>
      raise (TypeError "where() missing 1 required positional argument: 'whereclause'")
  | _ :: _ :: _ =>
      raise (TypeError ("where() takes 2 positional arguments but "
                          +:+ str_int (Z.of_nat (S (length criteria)))
                          +:+ " were given"))
  end.

(** The criterion [and_(id == id_, guild_id == ctx.guild.id)] of the detail
    lookup. *)
Definition where_id_guild (id_ guild_id : Z) (r : Infraction.t) : bool :=
  bool_decide (Infraction.id r = id_) && bool_decide (Infraction.guild_id r = guild_id).

(** Modelled from the spec: what an update statement with
    [values(reason=...)] does to a row it matches.  The statement names
    [reason] only; [edited_on] takes the current time through the column's
    on-update default, which is part of the table declaration. *)
Definition set_reason (new_reason : string) (now : datetime)
    (r : Infraction.t) : Infraction.t :=
  {| Infraction.id := Infraction.id r; Infraction.type := Infraction.type r;
     Infraction.guild_id := Infraction.guild_id r;
     Infraction.user_id := Infraction.user_id r;
     Infraction.moderator_id := Infraction.moderator_id r;
     Infraction.reason := new_reason;
     Infraction.created_on := Infraction.created_on r;
     Infraction.edited_on := Some now |}.

(** [infraction_db.update().where(...).values(reason=...)]: returns the row
    count. *)
Definition db_update_reason (cond : Infraction.t → bool) (new_reason : string)
    : Cmd Z := λ w,
  let rows := infraction_db (db w) in
  (Returned (Z.of_nat (length (filter (λ r, cond r = true) rows))),
   set_db {| infraction_db :=
               (λ r, if cond r then set_reason new_reason (utcnow w) r else r) <$> rows;
             next_id := next_id (db w) |} w).

(** [infraction_db.delete().where(...)]: returns the row count. *)
Definition db_delete (cond : Infraction.t → bool) : Cmd Z := λ w,
  let rows := infraction_db (db w) in
  (Returned (Z.of_nat (length (filter (λ r, cond r = true) rows))),
   set_db {| infraction_db := filter (λ r, cond r ≠ true) rows;
             next_id := next_id (db w) |} w).

(** [infraction_db.select().where(...)], rows in table order. *)
Definition db_select (cond : Infraction.t → bool) : Cmd (list Infraction.t) := λ w,
  (Returned (filter (λ r, cond r = true) (infraction_db (db w))), w).

(** [infraction_db.select().where(...).order_by(column)] for a column whose
    values are ordered through [key]. *)
Definition by_key (key : Infraction.t → Z) : relation Infraction.t :=
  λ a b, key a ≤ key b.

(** [ORDER BY] is ascending; rows with equal keys stay in table order. *)
Fixpoint insert_by (key : Infraction.t → Z) (r : Infraction.t)
    (sorted : list Infraction.t) : list Infraction.t :=
  match sorted with
  | [] => [r]
  | r' :: sorted' =>
      if bool_decide (key r ≤ key r') then r :: r' :: sorted'
      else r' :: insert_by key r sorted'
  end.

Definition order_by (key : Infraction.t → Z) (rows : list Infraction.t)
    : list Infraction.t :=
  foldr (insert_by key) [] rows.

Definition db_select_order_by (cond : Infraction.t → bool)
    (key : Infraction.t → Z) : Cmd (list Infraction.t) := λ w,
  (Returned (order_by key (filter (λ r, cond r = true) (infraction_db (db w)))), w).

(** ** Python helpers used by the command bodies *)

(** The newline character of ['\n'.join(...)]. *)
Definition nl : string := String (ascii_of_nat 10) EmptyString.

(** [for x in xs: ...] with a body that may raise, collecting what each
    round appends. *)
Fixpoint for_each {A B} (body : A → Cmd B) (xs : list A) : Cmd (list B) :=
  match xs with
  | [] => mret []
  | x :: xs' => y ← body x; ys ← for_each body xs'; mret (y :: ys)
  end.

(** [max(x :: xs, key=key)]: the first item whose key is not exceeded. *)
Definition max_by {A} (key : A → Z) (x : A) (xs : list A) : A :=
  foldl (λ best item, if bool_decide (key best < key item) then item else best) x xs.

(** [itertools.groupby(xs, key=key)]: maximal runs of neighbours with equal
    keys, each with the key of the run. *)
Fixpoint groupby {A K} `{EqDecision K} (key : A → K) (xs : list A)
    : list (K * list A) :=
  match xs with
  | [] => []
  | x :: xs' =>
      match groupby key xs' with
      | (k, run) :: runs =>
          if decide (key x = k) then (k, x :: run) :: runs
          else (key x, [x]) :: (k, run) :: runs
      | [] => [(key x, [x])]
      end
  end.

(** Ascending order of the rank of the key, the order under which the runs
    of [groupby] are the classes of the key. *)
Definition by_rank {A K} (key : A → K) (rank : K → Z) : relation A :=
  λ a b, rank (key a) ≤ rank (key b).

(** [a == b] on users and members compares their ids. *)
Definition user_eqb (a b : User.t) : bool := bool_decide (User.id a = User.id b).

(** ** The commands *)

Section Commands.

(** [str(d)] for a datetime. *)
Variable str_datetime : datetime → string.

Definition footer_by (verb : string) (ctx : Context.t) : string :=
  verb +:+ " by " +:+ Member.str (Context.author ctx) +:+ " ("
    +:+ str_int (Member.id (Context.author ctx)) +:+ ")".

Definition audit_reason (reason : string) : string :=
  if decide (reason = "") then "No reason specified" else reason.

(** The audit-log reason handed to [guild.kick] and to [guild.ban]. *)
Definition kick_audit (ctx : Context.t) (reason : string) : string :=
  "Command invoked by " +:+ Member.str (Context.author ctx)
    +:+ ", reason: " +:+ audit_reason reason +:+ ".".
Definition ban_audit (ctx : Context.t) (reason : string) : string :=
  "banned by command invocation from " +:+ Member.str (Context.author ctx)
    +:+ ", reason: " +:+ audit_reason reason +:+ ".".

(** The guard both [kick] and [ban] start with:
    [ctx.message.guild.me.top_role.position <= member.top_role.position]. *)
Definition hierarchy_blocks (ctx : Context.t) (member : Member.t) : bool :=
  bool_decide (Role.position (Member.top_role (Guild.me (Context.guild ctx)))
               ≤ Role.position (Member.top_role member)).

Definition kick (ctx : Context.t) (member : Member.t) (reason : string) : Cmd unit :=
  if hierarchy_blocks ctx member then
    send (Embed.make "Cannot kick:"
            (Some "I cannot kick any Members that are in the same or higher position in the role hierarchy as I am.")
            red)
  else
    _ ← guild_kick (Context.guild ctx) member (kick_audit ctx reason);
    let response :=
      Embed.set_footer (footer_by "Kicked" ctx)
        (Some (Member.avatar_url (Context.author ctx)))
        (Embed.make ("Kicked `" +:+ Member.str member +:+ "` (`"
                       +:+ str_int (Member.id member) +:+ "`)")
           None green) in
    inserted_pk ← db_insert kick_t (Guild.id (Context.guild ctx))
                    (Member.id member) (Member.id (Context.author ctx)) reason;
    send (Embed.add_field "Infraction"
            ("created with ID `" +:+ str_int inserted_pk +:+ "`") true
            (Embed.add_field "Reason" (str_or reason "no reason specified") true
               response)).

Definition ban (ctx : Context.t) (member : Member.t) (reason : string) : Cmd unit :=
  if hierarchy_blocks ctx member then
    send (Embed.make "Cannot ban:"
            (Some "I cannot ban any Members that are in the same or higher position in the role hierarchy as I am.")
            red)
  else
    _ ← guild_ban (Context.guild ctx) member (ban_audit ctx reason) 7;
    let response :=
      Embed.set_footer (footer_by "Banned" ctx)
        (Some (Member.avatar_url (Context.author ctx)))
        (Embed.make ("Banned `" +:+ Member.str member +:+ "` (`"
                       +:+ str_int (Member.id member) +:+ "`)")
           None green) in
    let response :=
      match reason with
      | EmptyString => response
      | String _ _ => Embed.set_description ("**Reason**: " +:+ reason) response
      end in
    inserted_pk ← db_insert ban_t (Guild.id (Context.guild ctx))
                    (Member.id member) (Member.id (Context.author ctx)) reason;
    send (Embed.add_field "Infraction"
            ("created with ID `" +:+ str_int inserted_pk +:+ "`") true
            (Embed.add_field "Reason" (str_or reason "no reason specified") true
               response)).

(** The report every purge variant ends with. *)
Definition purge_report (ctx : Context.t) (total : nat)
    (description : option string) : Embed.t :=
  Embed.set_footer (footer_by "Purged" ctx)
    (Some (Member.avatar_url (Context.author ctx)))
    (Embed.make ("Purged a total of `" +:+ str_int (Z.of_nat total) +:+ "` messages.")
       description green).

(** [limit] is [None] when the command is invoked without an amount. *)
Definition purge (ctx : Context.t) (limit : option Z) : Cmd unit :=
  let limit := default 100 limit in
  deleted ← channel_purge limit (λ _, true);
  let total := length deleted in
  send (purge_report ctx total None).

Definition purge_id (ctx : Context.t) (ids_to_purge : list Z) : Cmd unit :=
  match ids_to_purge with
  | [] =>
      send (Embed.make "Failed to purge by ID:"
              (Some "You need to specify at least one ID to purge.") red)
  | _ :: _ =>
      deleted ← channel_purge 1000
                  (λ m, bool_decide (User.id (Message.author m) ∈ ids_to_purge));
      let total := length deleted in
      let pruned_ids := "`" +:+ str_join "`, `" (str_int <$> ids_to_purge) +:+ "`" in
      send (purge_report ctx total (Some ("Affected IDs: " +:+ pruned_ids)))
  end.

Definition purge_containing (ctx : Context.t) (amount : Z)
    (message_contents : string) : Cmd unit :=
  deleted ← channel_purge amount
              (λ m, str_contains message_contents (Message.content m));
  let total := length deleted in
  send (purge_report ctx total
          (Some ("Specified message content: `" +:+ message_contents +:+ "`."))).

Definition purge_user (ctx : Context.t) (amount : Z) (to_purge : list Member.t)
    : Cmd unit :=
  match to_purge with
  | [] =>
      send (Embed.make "Failed to purge User(s)"
              (Some "You need to mention at least one User to purge.") red)
  | _ :: _ =>
      deleted ← channel_purge amount
                  (λ m, existsb (λ p, user_eqb (Message.author m) (Member.user p))
                          to_purge);
      let total := length deleted in
      let affected_users :=
        str_join ", " ((λ member, "`" +:+ Member.str member +:+ "` (`"
                                    +:+ str_int (Member.id member) +:+ "`)")
                         <$> to_purge) in
      send (purge_report ctx total (Some ("Affected users: " +:+ affected_users)))
  end.

Definition note (ctx : Context.t) (user : User.t) (note : string) : Cmd unit :=
  inserted_pk ← db_insert note_t (Guild.id (Context.guild ctx)) (User.id user)
                  (Member.id (Context.author ctx)) note;
  send (Embed.set_footer (footer_by "Note added" ctx)
          (Some (Member.avatar_url (Context.author ctx)))
          (Embed.make ("Added a note for `" +:+ User.str user +:+ "` (`"
                         +:+ str_int (User.id user) +:+ "`)")
             (Some ("View it in detail by using `infraction detail "
                      +:+ str_int inserted_pk +:+ "`."))
             green)).

Definition warn (ctx : Context.t) (user : User.t) (reason : string) : Cmd unit :=
  created_infraction_id ← db_insert warning_t (Guild.id (Context.guild ctx))
                            (User.id user) (Member.id (Context.author ctx)) reason;
  send (Embed.set_footer (footer_by "Authored" ctx) (Some (User.avatar_url user))
          (Embed.add_field "Infraction"
             ("created with ID `" +:+ str_int created_infraction_id +:+ "`") true
             (Embed.add_field "Reason" (str_or reason "no reason specified") true
                (Embed.make ("Warned user `" +:+ User.str user +:+ "` (`"
                               +:+ str_int (User.id user) +:+ "`)")
                   None (colour_value 16763904))))).

Definition infraction_edit (ctx : Context.t) (id_ : Z) (new_reason : string)
    : Cmd unit :=
  whereclause ← where_ [ (λ r, bool_decide (Infraction.id r = id_));
                         (λ r, bool_decide (Infraction.guild_id r
                                            = Guild.id (Context.guild ctx))) ];
  rowcount ← db_update_reason whereclause new_reason;
  if bool_decide (rowcount = 0) then
    send (Embed.make ("Failed to find infraction #`" +:+ str_int id_
                        +:+ "` on this guild.")
            None red)
  else
    send (Embed.make ("Successfully edited infraction #`" +:+ str_int id_ +:+ "`.")
            (Some ("**New reason**: " +:+ new_reason)) green).

Definition infraction_delete (ctx : Context.t) (id_ : Z) : Cmd unit :=
  whereclause ← where_ [ (λ r, bool_decide (Infraction.id r = id_));
                         (λ r, bool_decide (Infraction.guild_id r
                                            = Guild.id (Context.guild ctx))) ];
  rowcount ← db_delete whereclause;
  if bool_decide (rowcount = 0) then
    send (Embed.make ("Failed to find infraction #`" +:+ str_int id_
                        +:+ "` on this Guild.")
            None red)
  else
    send (Embed.make ("Successfully deleted infraction #`" +:+ str_int id_ +:+ "`.")
            None green).

Definition infraction_detail (ctx : Context.t) (id_ : Z) : Cmd unit :=
  result ← db_select (where_id_guild id_ (Guild.id (Context.guild ctx)));
  match head result with
  | None =>
      send (Embed.make ("Failed to find infraction ID `" +:+ str_int id_ +:+ "`.")
              None red)
  | Some infraction =>
      let infraction_embed :=
        Embed.make ("Infraction: `" +:+ str_int id_ +:+ "`") None blue in
      infraction_user ← get_user (Infraction.user_id infraction);
      let infraction_embed :=
        Embed.add_field "User"
          match infraction_user with
          | Some u => "`" +:+ User.str u +:+ "` (`" +:+ str_int (User.id u) +:+ "`)"
          | None => "`" +:+ str_int (Infraction.user_id infraction) +:+ "`"
          end true infraction_embed in
      let infraction_embed :=
        Embed.add_field "Reason" (Infraction.reason infraction) false
          (Embed.add_field "Last edited"
             match Infraction.edited_on infraction with
             | Some d => str_datetime d
             | None => "never"
             end true
             (Embed.add_field "Creation"
                (str_datetime (Infraction.created_on infraction)) true
                (Embed.add_field "Type"
                   (INFRACTION_TYPE_EMOJI (Infraction.type infraction) +:+ " "
                      +:+ str_title (type_value (Infraction.type infraction)))
                   true infraction_embed))) in
      author_moderator ← get_user (Infraction.moderator_id infraction);
      send match author_moderator with
           | Some a =>
               Embed.set_footer
                 ("Authored by " +:+ User.str a +:+ " (" +:+ str_int (User.id a) +:+ ")")
                 (Some (User.avatar_url a)) infraction_embed
           | None =>
               Embed.set_footer
                 ("Authored by unknown user (ID: "
                    +:+ str_int (Infraction.moderator_id infraction) +:+ ")")
                 None infraction_embed
           end
  end.

(** One round of the loop of [infraction_list]: the line appended for a
    row.  In the branch where the user is not resolved the line is built
    from [user.id], an attribute of [None]. *)
Definition list_line (infraction : Infraction.t) : Cmd string :=
  user ← get_user (Infraction.user_id infraction);
  user_string ←
    match user with
    | Some u =>
        mret ("`" +:+ User.str u +:+ "` (`" +:+ str_int (User.id u) +:+ "`)")
    | None =>
        user_id ← getattr_id user;
        mret ("unknown user (`" +:+ str_int user_id +:+ "`)")
    end;
  let infraction_emoji := INFRACTION_TYPE_EMOJI (Infraction.type infraction) in
  mret ("• [`" +:+ str_int (Infraction.id infraction) +:+ "`] " +:+ infraction_emoji
          +:+ " on " +:+ user_string +:+ " created "
          +:+ str_datetime (Infraction.created_on infraction)).

(** The query of [infraction_list] and the title that goes with it. *)
Definition list_query (ctx : Context.t) (types : list InfractionType)
    : Cmd (list Infraction.t) * string :=
  let guild_id := Guild.id (Context.guild ctx) in
  match types with
  | _ :: _ =>
      (db_select_order_by
         (λ r, bool_decide (Infraction.guild_id r = guild_id)
               && bool_decide (Infraction.type r ∈ types))
         Infraction.created_on,
       "Infractions with types `"
         +:+ str_join "`, `" ((λ type_, "`" +:+ str_type type_ +:+ "`") <$> types)
         +:+ "` on " +:+ Guild.name (Context.guild ctx))
  | [] =>
      (db_select_order_by
         (λ r, bool_decide (Infraction.guild_id r = guild_id))
         Infraction.created_on,
       "All infractions on " +:+ Guild.name (Context.guild ctx))
  end.

Definition infraction_list (ctx : Context.t) (types : list InfractionType)
    : Cmd unit :=
  let '(query, title) := list_query ctx types in
  all_infractions ← query;
  list_embed_description ← for_each list_line all_infractions;
  send (Embed.make title
          (Some (str_or (str_join nl list_embed_description)
                   "Seems like there's nothing here yet."))
          blue).

(** The field [infraction_user] adds for one run of [groupby]. *)
Definition user_field (group : InfractionType * list Infraction.t)
    : string * string :=
  (INFRACTION_TYPE_EMOJI group.1 +:+ " " +:+ type_value group.1 +:+ "s",
   str_join nl ((λ infraction, "• [`" +:+ str_int (Infraction.id infraction)
                                 +:+ "`] on "
                                 +:+ str_datetime (Infraction.created_on infraction))
                  <$> group.2)).

(** The query of [infraction_user]. *)
Definition user_query (ctx : Context.t) (user : User.t) : Cmd (list Infraction.t) :=
  db_select_order_by
    (λ r, bool_decide (Infraction.guild_id r = Guild.id (Context.guild ctx))
          && bool_decide (Infraction.user_id r = User.id user))
    (λ r, type_rank (Infraction.type r)).

Definition infraction_user (ctx : Context.t) (user : User.t) : Cmd unit :=
  rows ← user_query ctx user;
  match rows with
  | [] =>
      send (Embed.make ("No recorded infractions for `" +:+ User.str user +:+ "` (`"
                          +:+ str_int (User.id user) +:+ "`).")
              None blue)
  | row :: rows' =>
      let most_recent := max_by Infraction.created_on row rows' in
      let response :=
        Embed.set_footer
          ("total infractions: " +:+ str_int (Z.of_nat (length rows))
             +:+ ", most recent: #" +:+ str_int (Infraction.id most_recent)
             +:+ " at " +:+ str_datetime (Infraction.created_on most_recent))
          (Some (User.avatar_url user))
          (Embed.make ("Infractions for `" +:+ User.str user +:+ "` (`"
                         +:+ str_int (User.id user) +:+ "`)")
             None blue) in
      send (foldl (λ response group,
                     Embed.add_field (user_field group).1 (user_field group).2 true
                       response)
              response (groupby Infraction.type rows))
  end.

End Commands.

(** ** Vocabulary of the statements *)

(** A member's highest role rank. *)
Definition rank (m : Member.t) : Z := Role.position (Member.top_role m).

(** The platform requests a kick and a ban come down to. *)
Definition kick_request (ctx : Context.t) (member : Member.t) (reason : string)
    : Request :=
  GuildKick (Guild.id (Context.guild ctx)) (Member.id member) (kick_audit ctx reason).
Definition ban_request (ctx : Context.t) (member : Member.t) (reason : string)
    : Request :=
  GuildBan (Guild.id (Context.guild ctx)) (Member.id member) (ban_audit ctx reason) 7.

(** A command run from [w] ended in a denial: it returned, the only thing
    it did was to send one red embed with the given title; no request
    reached the platform and the store is as it was. *)
Definition denied (title : string) (w : World) (out : Outcome unit * World) : Prop :=
  out.1 = Returned ()
  ∧ requests out.2 = requests w
  ∧ db out.2 = db w
  ∧ history out.2 = history w
  ∧ ∃ e, sent out.2 = sent w ++ [e]
         ∧ Embed.title e = title ∧ Embed.colour e = red.

(** Number of rows of the infraction table. *)
Definition row_count (w : World) : nat := length (infraction_db (db w)).

(** Row [r] is the one an edit, delete or detail of [id_] issued from the
    guild of [ctx] addresses. *)
Definition in_scope (ctx : Context.t) (id_ : Z) (r : Infraction.t) : Prop :=
  Infraction.id r = id_ ∧ Infraction.guild_id r = Guild.id (Context.guild ctx).

(** What [where] raises when it is handed two criteria. *)
Definition where_two_criteria : Exception :=
  TypeError "where() takes 2 positional arguments but 3 were given".

(** The primary key: no two rows of the table share an id. *)
Definition primary_key (w : World) : Prop :=
  NoDup (Infraction.id <$> infraction_db (db w)).

(** How many messages of the channel were removed between [w] and [w']. *)
Definition removed (w w' : World) : nat :=
  (length (history w) - length (history w'))%nat.

(** Between [w] and [w'] only messages among the newest [n] were removed:
    the history of [w'] is what was kept of the newest [n], in order,
    followed by every older message. *)
Definition scans_at_most (n : Z) (w w' : World) : Prop :=
  ∃ kept, history w' = kept ++ drop (Z.to_nat n) (history w)
          ∧ sublist kept (take (Z.to_nat n) (history w)).

(** A purge run from [w] went through with scan window [n]: it returned,
    only messages among the newest [n] were removed, at most [n] of them,
    and the one embed it sent states the number of messages removed. *)
Definition purged_within (n : Z) (w : World) (out : Outcome unit * World) : Prop :=
  out.1 = Returned ()
  ∧ scans_at_most n w out.2
  ∧ (removed w out.2 ≤ Z.to_nat n)%nat
  ∧ ∃ e, sent out.2 = sent w ++ [e]
         ∧ Embed.title e
           = "Purged a total of `" +:+ str_int (Z.of_nat (removed w out.2))
               +:+ "` messages.".

(** [s] occurs in [t] as a literal run of characters. *)
Definition occurs_in (s t : string) : Prop :=
  ∃ before after, t = before +:+ s +:+ after.

(** The rows a query returns when it is run in [w]. *)
Definition rows_of (query : Cmd (list Infraction.t)) (w : World)
    : list Infraction.t :=
  match (query w).1 with
  | Returned rows => rows
  | Raised _ => []
  end.

(** The heading of the section of a type in the per-user history. *)
Definition section_title (t : InfractionType) : string :=
  match t with
  | note_t => "📔 notes"
  | warning_t => "⚠ warnings"
  | mute_t => "🔇 mutes"
  | kick_t => "👢 kicks"
  | ban_t => "🔨 bans"
  end.

(** The line of a record in its section: its id and its creation time. *)
Definition section_entry (str_datetime : datetime → string) (r : Infraction.t)
    : string :=
  "• [`" +:+ str_int (Infraction.id r) +:+ "`] on "
    +:+ str_datetime (Infraction.created_on r).

(** The field of the per-user history that shows a section: the heading of
    its type over one line per record, in order. *)
Definition section_field (str_datetime : datetime → string)
    (group : InfractionType * list Infraction.t) : Embed.field_t :=
  {| Embed.name := section_title group.1;
     Embed.value := str_join nl (section_entry str_datetime <$> group.2);
     Embed.inline := true |}.

(** What the attribute access on [None] raises. *)
Definition none_has_no_id : Exception :=
  AttributeError "'NoneType' object has no attribute 'id'".

(** The line [infraction_list] renders for a row whose user [u] is in the
    cache. *)
Definition resolved_line (str_datetime : datetime → string) (u : User.t)
    (r : Infraction.t) : string :=
  "• [`" +:+ str_int (Infraction.id r) +:+ "`] "
    +:+ INFRACTION_TYPE_EMOJI (Infraction.type r) +:+ " on "
    +:+ ("`" +:+ User.str u +:+ "` (`" +:+ str_int (User.id u) +:+ "`)")
    +:+ " created " +:+ str_datetime (Infraction.created_on r).

(** The table is well-formed: no two rows share an id and every id was
    handed out by the sequence already. *)
Definition db_ok (d : Database) : Prop :=
  NoDup (Infraction.id <$> infraction_db d)
  ∧ ∀ r, r ∈ infraction_db d → Infraction.id r < next_id d.

Definition store_ok (w : World) : Prop := db_ok (db w).

(** The value of the first field of an embed that carries the given name. *)
Definition field_value (name : string) (e : Embed.t) : option string :=
  Embed.value <$> head (filter (λ f, Embed.name f = name) (Embed.fields e)).

(** A command run from [w] reported once: when it returns it has sent
    exactly one embed, when it raises it has sent none. *)
Definition reports_once (w : World) (out : Outcome unit * World) : Prop :=
  match out.1 with
  | Returned _ => ∃ e, sent out.2 = sent w ++ [e]
  | Raised _ => sent out.2 = sent w
  end.


(** The report of a detail lookup that finds nothing. *)
Definition detail_not_found (id_ : Z) : Embed.t :=
  Embed.make ("Failed to find infraction ID `" +:+ str_int id_ +:+ "`.") None red.

(** The placeholder of an empty listing. *)
Definition nothing_here_yet : string := "Seems like there's nothing here yet.".

(** The ways a purge variant can end: with a usage error, with the
    exception of the platform and a history that may have lost messages,
    or with one purge request carried out and one embed sent. *)
Definition purge_outcome (w : World) (out : Outcome unit * World) : Prop :=
  (∃ e, out = (Returned (), log_sent e w))
  ∨ (∃ e h, out = (Raised e, set_history h w))
  ∨ (∃ e h limit,
       out = (Returned (),
              log_sent e (log_request (ChannelPurge limit) (set_history h w)))).

(** How [infraction_detail] shows the user and the author of a record:
    resolved through the cache, or by the raw id. *)
Definition detail_user (w : World) (r : Infraction.t) : string :=
  match users w !! Infraction.user_id r with
  | Some u => "`" +:+ User.str u +:+ "` (`" +:+ str_int (User.id u) +:+ "`)"
  | None => "`" +:+ str_int (Infraction.user_id r) +:+ "`"
  end.

Definition detail_author (w : World) (r : Infraction.t) : Embed.footer_t :=
  match users w !! Infraction.moderator_id r with
  | Some a =>
      {| Embed.text := "Authored by " +:+ User.str a +:+ " ("
                         +:+ str_int (User.id a) +:+ ")";
         Embed.icon_url := Some (User.avatar_url a) |}
  | None =>
      {| Embed.text := "Authored by unknown user (ID: "
                         +:+ str_int (Infraction.moderator_id r) +:+ ")";
         Embed.icon_url := None |}
  end.

(** Embed [e] is the detail view of record [r]. *)
Definition shows_record (str_datetime : datetime → string) (w : World)
    (r : Infraction.t) (e : Embed.t) : Prop :=
  Embed.title e = "Infraction: `" +:+ str_int (Infraction.id r) +:+ "`"
  ∧ Embed.colour e = blue
  ∧ Embed.name <$> Embed.fields e = ["User"; "Type"; "Creation"; "Last edited"; "Reason"]
  ∧ field_value "User" e = Some (detail_user w r)
  ∧ field_value "Type" e
    = Some (INFRACTION_TYPE_EMOJI (Infraction.type r) +:+ " "
              +:+ str_title (type_value (Infraction.type r)))
  ∧ field_value "Creation" e = Some (str_datetime (Infraction.created_on r))
  ∧ field_value "Last edited" e
    = Some (from_option str_datetime "never" (Infraction.edited_on r))
  ∧ field_value "Reason" e = Some (Infraction.reason r)
  ∧ Embed.footer e = Some (detail_author w r).

(** The row an insert issued in [w] writes. *)
Definition new_row (w : World) (type : InfractionType)
    (guild_id user_id moderator_id : Z) (reason : string) : Infraction.t :=
  {| Infraction.id := next_id (db w); Infraction.type := type;
     Infraction.guild_id := guild_id; Infraction.user_id := user_id;
     Infraction.moderator_id := moderator_id; Infraction.reason := reason;
     Infraction.created_on := utcnow w; Infraction.edited_on := None |}.

(** ** Sample data *)

Definition sample_user (id : Z) (name : string) : User.t :=
  {| User.id := id; User.name := name; User.discriminator := "1337";
     User.avatar_url := "https://cdn.example/" +:+ name |}.

Definition sample_member (id : Z) (name : string) (position : Z) : Member.t :=
  {| Member.user := sample_user id name;
     Member.top_role := {| Role.position := position |} |}.

(** A guild where the bot sits at position 10 and the invoking moderator at
    position 3. *)
Definition sample_ctx : Context.t :=
  {| Context.guild := {| Guild.id := 1; Guild.name := "ducks";
                         Guild.me := sample_member 100 "bolt" 10 |};
     Context.author := sample_member 7 "mod" 3 |}.

Definition empty_world : World :=
  {| db := {| infraction_db := []; next_id := 1 |};
     utcnow := 1000;
     users := ∅;
     history := [];
     fault := λ _, None;
     progress := λ _, O;
     requests := [];
     sent := [] |}.

(** A world whose table holds a note of guild 1 with id 1 and a warning of
    guild 2 with id 2. *)
Definition ledger_world : World :=
  {| db := {| infraction_db :=
                [ {| Infraction.id := 1; Infraction.type := note_t;
                     Infraction.guild_id := 1; Infraction.user_id := 42;
                     Infraction.moderator_id := 7;
                     Infraction.reason := "likes ducks";
                     Infraction.created_on := 500; Infraction.edited_on := None |};
                  {| Infraction.id := 2; Infraction.type := warning_t;
                     Infraction.guild_id := 2; Infraction.user_id := 43;
                     Infraction.moderator_id := 8;
                     Infraction.reason := "spam";
                     Infraction.created_on := 600; Infraction.edited_on := None |} ];
              next_id := 3 |};
     utcnow := 1000;
     users := ∅;
     history := [];
     fault := λ _, None;
     progress := λ _, O;
     requests := [];
     sent := [] |}.

(** A world where user 42 has two notes and a warning in guild 1; the
    second note is the newest of the three. *)
Definition history_world : World :=
  {| db := {| infraction_db :=
                [ {| Infraction.id := 1; Infraction.type := note_t;
                     Infraction.guild_id := 1; Infraction.user_id := 42;
                     Infraction.moderator_id := 7;
                     Infraction.reason := "likes ducks";
                     Infraction.created_on := 100; Infraction.edited_on := None |};
                  {| Infraction.id := 2; Infraction.type := warning_t;
                     Infraction.guild_id := 1; Infraction.user_id := 42;
                     Infraction.moderator_id := 7;
                     Infraction.reason := "spam";
                     Infraction.created_on := 200; Infraction.edited_on := None |};
                  {| Infraction.id := 3; Infraction.type := note_t;
                     Infraction.guild_id := 1; Infraction.user_id := 42;
                     Infraction.moderator_id := 8;
                     Infraction.reason := "likes geese";
                     Infraction.created_on := 300; Infraction.edited_on := None |} ];
              next_id := 4 |};
     utcnow := 1000;
     users := ∅;
     history := [];
     fault := λ _, None;
     progress := λ _, O;
     requests := [];
     sent := [] |}.

Definition sample_message (id : Z) (author : User.t) (content : string)
    : Message.t :=
  {| Message.id := id; Message.author := author; Message.content := content |}.

(** A world whose channel holds three messages, newest first. *)
Definition chat_world : World :=
  {| db := db empty_world; utcnow := utcnow empty_world;
     users := users empty_world;
     history := [ sample_message 3 (sample_user 42 "guy") "x marks the spot";
                  sample_message 2 (sample_user 43 "gal") "an X-ray";
                  sample_message 1 (sample_user 42 "guy") "hello" ];
     fault := λ _, None;
     progress := λ _, O;
     requests := []; sent := [] |}.

(** The same world with a platform that answers every request with
    [Forbidden]. *)
Definition forbidding_world : World :=
  {| db := db empty_world; utcnow := utcnow empty_world;
     users := users empty_world; history := history empty_world;
     fault := λ _, Some Forbidden;
     progress := λ _, O;
     requests := []; sent := [] |}.

(** The channel of [chat_world] with a platform that refuses every request
    after one deletion. *)
Definition refusing_chat_world : World :=
  {| db := db empty_world; utcnow := utcnow empty_world;
     users := users empty_world; history := history chat_world;
     fault := λ _, Some NotFound;
     progress := λ _, 1%nat;
     requests := []; sent := [] |}.

(** The ledger of [ledger_world] with the users 42 and 43 in the cache. *)
Definition resolved_world : World :=
  {| db := db ledger_world; utcnow := utcnow ledger_world;
     users := <[42 := sample_user 42 "guy"]> (<[43 := sample_user 43 "gal"]> ∅);
     history := []; fault := λ _, None; progress := λ _, O;
     requests := []; sent := [] |}.

(** * Theorems *)

(** ** Kick and ban *)

Ltac run :=
  unfold mbind, Cmd_bind, mret, Cmd_ret, raise, send, guild_kick, guild_ban,
    request; simpl.

Lemma kick_blocked ctx member reason w :
  hierarchy_blocks ctx member = true →
  denied "Cannot kick:" w (kick ctx member reason w).
Proof.
  intros Hb. unfold kick. rewrite Hb. unfold denied, send. simpl.
  repeat split; eauto.
Qed.

Lemma ban_blocked ctx member reason w :
  hierarchy_blocks ctx member = true →
  denied "Cannot ban:" w (ban ctx member reason w).
Proof.
  intros Hb. unfold ban. rewrite Hb. unfold denied, send. simpl.
  repeat split; eauto.
Qed.

Lemma kick_refused ctx member reason w e :
  hierarchy_blocks ctx member = false →
  fault w (kick_request ctx member reason) = Some e →
  kick ctx member reason w = (Raised e, w).
Proof.
  intros Hb Hf. unfold kick. rewrite Hb. run.
  unfold kick_request in Hf. by rewrite Hf.
Qed.

Lemma ban_refused ctx member reason w e :
  hierarchy_blocks ctx member = false →
  fault w (ban_request ctx member reason) = Some e →
  ban ctx member reason w = (Raised e, w).
Proof.
  intros Hb Hf. unfold ban. rewrite Hb. run.
  unfold ban_request in Hf. by rewrite Hf.
Qed.

Lemma kick_carried_out ctx member reason w :
  hierarchy_blocks ctx member = false →
  fault w (kick_request ctx member reason) = None →
  ∃ row e,
    (kick ctx member reason w).1 = Returned ()
    ∧ infraction_db (db (kick ctx member reason w).2) = infraction_db (db w) ++ [row]
    ∧ Infraction.type row = kick_t
    ∧ Infraction.id row = next_id (db w)
    ∧ requests (kick ctx member reason w).2
      = requests w ++ [kick_request ctx member reason]
    ∧ sent (kick ctx member reason w).2 = sent w ++ [e]
    ∧ Embed.colour e = green.
Proof.
  intros Hb Hf. unfold kick. rewrite Hb. run.
  unfold kick_request in Hf. rewrite Hf. simpl.
  eexists _, _. repeat split; reflexivity.
Qed.

Lemma ban_carried_out ctx member reason w :
  hierarchy_blocks ctx member = false →
  fault w (ban_request ctx member reason) = None →
  ∃ row e,
    (ban ctx member reason w).1 = Returned ()
    ∧ infraction_db (db (ban ctx member reason w).2) = infraction_db (db w) ++ [row]
    ∧ Infraction.type row = ban_t
    ∧ Infraction.id row = next_id (db w)
    ∧ requests (ban ctx member reason w).2
      = requests w ++ [ban_request ctx member reason]
    ∧ sent (ban ctx member reason w).2 = sent w ++ [e]
    ∧ Embed.colour e = green.
Proof.
  intros Hb Hf. unfold ban. rewrite Hb. run.
  unfold ban_request in Hf. rewrite Hf. simpl.
  eexists _, _. repeat split; try reflexivity.
  by destruct reason.
Qed.

Lemma hierarchy_blocks_rank ctx member :
  hierarchy_blocks ctx member = true
  ↔ rank (Guild.me (Context.guild ctx)) ≤ rank member.
Proof. unfold hierarchy_blocks, rank. apply bool_decide_eq_true. Qed.

Lemma hierarchy_blocks_set_author invoker ctx member :
  hierarchy_blocks (Context.set_author invoker ctx) member
  = hierarchy_blocks ctx member.
Proof. reflexivity. Qed.

Lemma snoc_neq {A} (l : list A) (x : A) : l ++ [x] ≠ l.
Proof.
  intros H. apply (f_equal length) in H. rewrite length_app in H.
  simpl in H. lia.
Qed.

Lemma kick_denied_iff ctx member reason w :
  denied "Cannot kick:" w (kick ctx member reason w)
  ↔ hierarchy_blocks ctx member = true.
Proof.
  split; [| apply kick_blocked].
  destruct (hierarchy_blocks ctx member) eqn:Hb; [done |].
  intros (Hret & Hreq & _).
  destruct (fault w (kick_request ctx member reason)) as [e |] eqn:Hf.
  - rewrite (kick_refused _ _ _ _ e Hb Hf) in Hret. discriminate.
  - destruct (kick_carried_out ctx member reason w Hb Hf)
      as (row & e & _ & _ & _ & _ & Hreq' & _).
    rewrite Hreq' in Hreq. by apply snoc_neq in Hreq.
Qed.

Lemma ban_denied_iff ctx member reason w :
  denied "Cannot ban:" w (ban ctx member reason w)
  ↔ hierarchy_blocks ctx member = true.
Proof.
  split; [| apply ban_blocked].
  destruct (hierarchy_blocks ctx member) eqn:Hb; [done |].
  intros (Hret & Hreq & _).
  destruct (fault w (ban_request ctx member reason)) as [e |] eqn:Hf.
  - rewrite (ban_refused _ _ _ _ e Hb Hf) in Hret. discriminate.
  - destruct (ban_carried_out ctx member reason w Hb Hf)
      as (row & e & _ & _ & _ & _ & Hreq' & _).
    rewrite Hreq' in Hreq. by apply snoc_neq in Hreq.
Qed.

(** C1, as stated: a kick of a target whose rank is at least the rank of
    the invoking moderator would be denied.  It is not: with the moderator
    at position 3, the target at position 5 and the bot at position 10 the
    kick reaches the platform and a row is written. *)
Lemma actor_rank_denial_counterexample :
  rank (Context.author sample_ctx) ≤ rank (sample_member 42 "guy" 5)
  ∧ ¬ denied "Cannot kick:" empty_world
        (kick sample_ctx (sample_member 42 "guy" 5) "" empty_world)
  ∧ requests (kick sample_ctx (sample_member 42 "guy" 5) "" empty_world).2
    = [kick_request sample_ctx (sample_member 42 "guy" 5) ""]
  ∧ row_count (kick sample_ctx (sample_member 42 "guy" 5) "" empty_world).2
    = S (row_count empty_world).
Proof.
  split; [by vm_compute |].
  split; [| split; reflexivity].
  rewrite kick_denied_iff. by vm_compute.
Qed.

(** C1, amended: when the target's highest role rank is greater than or
    equal to the highest role rank of the bot's own account, kick and ban
    both deny: the command returns after sending one red denial embed, no
    request reaches the platform, and the infraction table has the rows it
    had before. *)
Theorem bot_rank_denial ctx member reason w :
  rank (Guild.me (Context.guild ctx)) ≤ rank member →
  (denied "Cannot kick:" w (kick ctx member reason w)
   ∧ row_count (kick ctx member reason w).2 = row_count w)
  ∧ (denied "Cannot ban:" w (ban ctx member reason w)
     ∧ row_count (ban ctx member reason w).2 = row_count w).
Proof.
  intros Hrank. apply hierarchy_blocks_rank in Hrank.
  pose proof (kick_blocked ctx member reason w Hrank) as Hk.
  pose proof (ban_blocked ctx member reason w Hrank) as Hb.
  split; (split; [assumption |]); unfold row_count.
  - destruct Hk as (_ & _ & Hdb & _). by rewrite Hdb.
  - destruct Hb as (_ & _ & Hdb & _). by rewrite Hdb.
Qed.

Lemma bot_rank_denial_witness :
  denied "Cannot kick:" empty_world
    (kick sample_ctx (sample_member 42 "guy" 10) "spamming" empty_world)
  ∧ denied "Cannot ban:" empty_world
      (ban sample_ctx (sample_member 42 "guy" 10) "spamming" empty_world).
Proof.
  assert (Hrank : rank (Guild.me (Context.guild sample_ctx))
                  ≤ rank (sample_member 42 "guy" 10)) by (vm_compute; discriminate).
  split.
  - exact (proj1 (proj1 (bot_rank_denial sample_ctx (sample_member 42 "guy" 10)
                           "spamming" empty_world Hrank))).
  - exact (proj1 (proj2 (bot_rank_denial sample_ctx (sample_member 42 "guy" 10)
                           "spamming" empty_world Hrank))).
Defined.

(** C2: on a kick or ban that passes the hierarchy check the row is written
    only after the platform carried out the request.  When the platform
    refuses the request the command raises the platform's exception and the
    world, the infraction table included, is as it was; when the platform
    carries it out exactly one row of the matching type is appended. *)
Theorem ledger_after_platform ctx member reason w :
  hierarchy_blocks ctx member = false →
  ((∀ e, fault w (kick_request ctx member reason) = Some e →
         kick ctx member reason w = (Raised e, w))
   ∧ (fault w (kick_request ctx member reason) = None →
      ∃ row, infraction_db (db (kick ctx member reason w).2)
             = infraction_db (db w) ++ [row]
             ∧ Infraction.type row = kick_t
             ∧ requests (kick ctx member reason w).2
               = requests w ++ [kick_request ctx member reason]))
  ∧ ((∀ e, fault w (ban_request ctx member reason) = Some e →
           ban ctx member reason w = (Raised e, w))
     ∧ (fault w (ban_request ctx member reason) = None →
        ∃ row, infraction_db (db (ban ctx member reason w).2)
               = infraction_db (db w) ++ [row]
               ∧ Infraction.type row = ban_t
               ∧ requests (ban ctx member reason w).2
                 = requests w ++ [ban_request ctx member reason])).
Proof.
  intros Hb. repeat split.
  - intros e. by apply kick_refused.
  - intros Hf.
    destruct (kick_carried_out ctx member reason w Hb Hf)
      as (row & e & _ & Hrows & Hty & _ & Hreq & _).
    by exists row.
  - intros e. by apply ban_refused.
  - intros Hf.
    destruct (ban_carried_out ctx member reason w Hb Hf)
      as (row & e & _ & Hrows & Hty & _ & Hreq & _).
    by exists row.
Qed.

Lemma ledger_after_platform_witness :
  kick sample_ctx (sample_member 42 "guy" 5) "" forbidding_world
  = (Raised Forbidden, forbidding_world)
  ∧ ban sample_ctx (sample_member 42 "guy" 5) "" forbidding_world
    = (Raised Forbidden, forbidding_world).
Proof.
  split.
  - exact (proj1 (proj1 (ledger_after_platform sample_ctx (sample_member 42 "guy" 5)
                           "" forbidding_world eq_refl))
             Forbidden eq_refl).
  - exact (proj1 (proj2 (ledger_after_platform sample_ctx (sample_member 42 "guy" 5)
                           "" forbidding_world eq_refl))
             Forbidden eq_refl).
Defined.

(** C10: whether a kick or a ban is denied is decided by comparing the
    highest role position of the bot's own account with that of the target;
    replacing the invoking moderator by any other member leaves the
    decision as it is. *)
Theorem denial_ignores_invoker ctx invoker member reason w :
  (denied "Cannot kick:" w (kick ctx member reason w)
   ↔ rank (Guild.me (Context.guild ctx)) ≤ rank member)
  ∧ (denied "Cannot kick:" w (kick (Context.set_author invoker ctx) member reason w)
     ↔ denied "Cannot kick:" w (kick ctx member reason w))
  ∧ (denied "Cannot ban:" w (ban ctx member reason w)
     ↔ rank (Guild.me (Context.guild ctx)) ≤ rank member)
  ∧ (denied "Cannot ban:" w (ban (Context.set_author invoker ctx) member reason w)
     ↔ denied "Cannot ban:" w (ban ctx member reason w)).
Proof.
  rewrite !kick_denied_iff, !ban_denied_iff, !hierarchy_blocks_set_author.
  rewrite hierarchy_blocks_rank. tauto.
Qed.

(** ** Edit and delete *)

Lemma where_id_guild_in_scope ctx id_ r :
  where_id_guild id_ (Guild.id (Context.guild ctx)) r = true ↔ in_scope ctx id_ r.
Proof.
  unfold where_id_guild, in_scope.
  rewrite andb_true_iff, !bool_decide_eq_true. tauto.
Qed.

Lemma infraction_edit_raises ctx id_ new_reason w :
  infraction_edit ctx id_ new_reason w = (Raised where_two_criteria, w).
Proof. reflexivity. Qed.

Lemma infraction_delete_raises ctx id_ w :
  infraction_delete ctx id_ w = (Raised where_two_criteria, w).
Proof. reflexivity. Qed.

(** C3 fails on the code: [infraction_edit] hands [where] two criteria,
    where the other queries of the cog join theirs by [and_], and [where]
    raises [TypeError] before any statement is built.  Whether or not a
    record of the guild carries the id, the edit raises, every row is as it
    was, the reason included, and no report is sent. *)
Theorem edit_raises_before_update ctx id_ new_reason w :
  infraction_edit ctx id_ new_reason w = (Raised where_two_criteria, w)
  ∧ infraction_db (db (infraction_edit ctx id_ new_reason w).2) = infraction_db (db w)
  ∧ sent (infraction_edit ctx id_ new_reason w).2 = sent w.
Proof. by rewrite infraction_edit_raises. Qed.

(** The edit of the note of guild 1 in [ledger_world]: the reason stays. *)
Example edit_keeps_old_reason :
  (infraction_edit sample_ctx 1 "likes geese" ledger_world).1
  = Raised where_two_criteria
  ∧ Infraction.reason
      <$> infraction_db (db (infraction_edit sample_ctx 1 "likes geese" ledger_world).2)
    = ["likes ducks"; "spam"]
  ∧ sent (infraction_edit sample_ctx 1 "likes geese" ledger_world).2 = [].
Proof. by rewrite infraction_edit_raises. Qed.

Lemma primary_key_inj (rows : list Infraction.t) (r r' : Infraction.t) :
  NoDup (Infraction.id <$> rows) →
  r ∈ rows → r' ∈ rows → Infraction.id r = Infraction.id r' → r = r'.
Proof.
  induction rows as [| x rows IH]; intros Hnd Hr Hr' Hid.
  - by apply not_elem_of_nil in Hr.
  - rewrite fmap_cons in Hnd. apply NoDup_cons in Hnd as [Hfresh Hnd].
    apply elem_of_cons in Hr as [-> | Hr]; apply elem_of_cons in Hr' as [-> | Hr'].
    + done.
    + exfalso. apply Hfresh. rewrite Hid. by apply list_elem_of_fmap_2.
    + exfalso. apply Hfresh. rewrite <- Hid. by apply list_elem_of_fmap_2.
    + by apply IH.
Qed.

Lemma foreign_id_out_of_scope ctx id_ w r :
  primary_key w →
  r ∈ infraction_db (db w) →
  Infraction.id r = id_ →
  Infraction.guild_id r ≠ Guild.id (Context.guild ctx) →
  ∀ r', r' ∈ infraction_db (db w) → ¬ in_scope ctx id_ r'.
Proof.
  intros Hpk Hr Hid Hguild r' Hr' [Hid' Hguild'].
  assert (r = r') as -> by (apply (primary_key_inj _ _ _ Hpk Hr Hr'); congruence).
  done.
Qed.

(** C4 fails on the code in what it reports: an edit or a delete of id 2
    from guild 1, where id 2 belongs to a record of guild 2, raises the
    [TypeError] of [where] with its two criteria.  The record of the other
    guild is untouched, but no not-found report is sent. *)
Theorem foreign_id_edit_delete_raise :
  infraction_edit sample_ctx 2 "x" ledger_world
  = (Raised where_two_criteria, ledger_world)
  ∧ infraction_delete sample_ctx 2 ledger_world
    = (Raised where_two_criteria, ledger_world)
  ∧ sent (infraction_edit sample_ctx 2 "x" ledger_world).2 = []
  ∧ sent (infraction_delete sample_ctx 2 ledger_world).2 = [].
Proof.
  rewrite infraction_edit_raises, infraction_delete_raises. by split_and!.
Qed.

(** ** Purge *)

Lemma append_cons (a : ascii) (s t : string) :
  String a s +:+ t = String a (s +:+ t).
Proof. reflexivity. Qed.

Lemma append_nil (t : string) : "" +:+ t = t.
Proof. reflexivity. Qed.

Lemma str_startswith_prefix (s t : string) :
  str_startswith s t = true ↔ ∃ after, t = s +:+ after.
Proof.
  revert t. induction s as [| a s IH]; intros t; simpl.
  - split; [intros _; by exists t | done].
  - destruct t as [| b t].
    + split; [done | intros [after Heq]; discriminate].
    + setoid_rewrite append_cons.
      destruct (Ascii.eqb_spec a b) as [-> | Hne].
      * rewrite IH. split; intros [after Heq]; exists after; congruence.
      * split; [done | intros [after Heq]; congruence].
Qed.

Lemma str_contains_occurs (s t : string) :
  str_contains s t = true ↔ occurs_in s t.
Proof.
  unfold occurs_in. induction t as [| b t IH].
  - simpl. destruct (str_startswith s "") eqn:Hs.
    + apply str_startswith_prefix in Hs as [after Heq].
      split; [intros _; by exists "", after | done].
    + split; [done |]. intros (before & after & Heq).
      destruct before; [| discriminate]. rewrite append_nil in Heq.
      assert (str_startswith s "" = true) by (apply str_startswith_prefix; eauto).
      congruence.
  - cbn [str_contains]. destruct (str_startswith s (String b t)) eqn:Hs.
    + apply str_startswith_prefix in Hs as [after Heq].
      split; [intros _; by exists "", after | done].
    + rewrite IH. split.
      * intros (before & after & ->). by exists (String b before), after.
      * intros (before & after & Heq). destruct before as [| c before].
        -- rewrite append_nil in Heq.
           assert (str_startswith s (String b t) = true)
             by (apply str_startswith_prefix; eauto).
           congruence.
        -- rewrite append_cons in Heq. injection Heq as _ ->.
           by exists before, after.
Qed.

Lemma channel_purge_run limit check w :
  fault w (ChannelPurge limit) = None →
  channel_purge limit check w
  = (Returned (filter (λ m, check m = true) (take (Z.to_nat limit) (history w))),
     log_request (ChannelPurge limit)
       (set_history (filter (λ m, check m ≠ true) (take (Z.to_nat limit) (history w))
                       ++ drop (Z.to_nat limit) (history w)) w)).
Proof. intros Hf. unfold channel_purge. by rewrite Hf. Qed.

Lemma filter_split_length (check : Message.t → bool) (l : list Message.t) :
  (length (filter (λ m, check m = true) l)
   + length (filter (λ m, check m ≠ true) l) = length l)%nat.
Proof.
  rewrite <- length_app.
  apply Permutation_length, (filter_app_complement (λ m, check m = true)).
Qed.

(** What one pass of [channel.purge] does to the channel: the number of
    messages returned is the number that left the history, it is at most
    the limit, and nothing older than the newest [limit] messages is
    touched. *)
Lemma channel_purge_bounded limit check w deleted w' :
  channel_purge limit check w = (Returned deleted, w') →
  length deleted = removed w w'
  ∧ (length deleted ≤ Z.to_nat limit)%nat
  ∧ scans_at_most limit w w'
  ∧ sent w' = sent w ∧ db w' = db w.
Proof.
  unfold channel_purge. destruct (fault w (ChannelPurge limit)); [done |].
  intros [= <- <-]. simpl.
  pose proof (filter_split_length check (take (Z.to_nat limit) (history w))) as Hsplit.
  pose proof (length_filter (λ m, check m = true) (take (Z.to_nat limit) (history w)))
    as Hle.
  pose proof (f_equal length (take_drop (Z.to_nat limit) (history w))) as Hwhole.
  rewrite length_app in Hwhole.
  repeat split.
  - unfold removed. simpl. rewrite length_app. lia.
  - rewrite length_take in Hle. lia.
  - eexists. split; [done |]. apply sublist_filter.
Qed.

Lemma purge_then_report ctx limit check description w :
  fault w (ChannelPurge limit) = None →
  purged_within limit w
    ((deleted ← channel_purge limit check;
      send (purge_report ctx (length deleted) description)) w).
Proof.
  intros Hf. unfold mbind, Cmd_bind.
  destruct (channel_purge limit check w) as [[deleted | e] w'] eqn:Hrun.
  - destruct (channel_purge_bounded _ _ _ _ _ Hrun)
      as (Hcount & Hle & Hscan & Hsent & _).
    rewrite Hcount in Hle. rewrite Hcount.
    split; [done |]. split; [exact Hscan |]. split; [exact Hle |].
    eexists. split; [simpl; rewrite Hsent; reflexivity | reflexivity].
  - rewrite (channel_purge_run _ _ _ Hf) in Hrun. discriminate.
Qed.

Lemma filter_none_kept (l : list Message.t) :
  filter (λ _ : Message.t, true ≠ true) l = [].
Proof.
  induction l as [| m l IH]; [done |].
  rewrite filter_cons_False; [exact IH |]. intros Hne. by apply Hne.
Qed.

(** C5: purge-by-id and purge-by-user invoked with no targets report a
    usage error and stop there: one red embed is sent, no purge request
    reaches the platform, and the channel history is as it was. *)
Theorem empty_targets_rejected ctx amount w :
  purge_id ctx [] w
  = (Returned (),
     log_sent (Embed.make "Failed to purge by ID:"
                 (Some "You need to specify at least one ID to purge.") red) w)
  ∧ denied "Failed to purge by ID:" w (purge_id ctx [] w)
  ∧ purge_user ctx amount [] w
    = (Returned (),
       log_sent (Embed.make "Failed to purge User(s)"
                   (Some "You need to mention at least one User to purge.") red) w)
  ∧ denied "Failed to purge User(s)" w (purge_user ctx amount [] w).
Proof.
  unfold denied, purge_id, purge_user, send. simpl.
  repeat split; eauto.
Qed.

(** C6: on a purge-containing with text [message_contents] that the
    platform carries out, a message among the scanned ones is gone from the
    channel afterwards exactly when its content holds [message_contents] as
    a literal run of characters, compared character by character. *)
Theorem purge_containing_literal ctx amount message_contents w m :
  fault w (ChannelPurge amount) = None →
  NoDup (history w) →
  m ∈ take (Z.to_nat amount) (history w) →
  m ∉ history (purge_containing ctx amount message_contents w).2
  ↔ occurs_in message_contents (Message.content m).
Proof.
  intros Hf Hnd Hm.
  unfold purge_containing, mbind, Cmd_bind.
  rewrite (channel_purge_run _ _ _ Hf). simpl.
  rewrite <- str_contains_occurs.
  rewrite <- (take_drop (Z.to_nat amount) (history w)) in Hnd.
  apply NoDup_app in Hnd as (_ & Hold & _).
  rewrite elem_of_app, list_elem_of_filter.
  destruct (str_contains message_contents (Message.content m)) eqn:Hc.
  - split; [done |]. intros _ [[Hno _] | Hin]; [done |]. by apply (Hold m).
  - split; [| done]. intros Hgone. exfalso. apply Hgone. left. by split.
Qed.

Lemma purge_containing_literal_witness :
  sample_message 2 (sample_user 43 "gal") "an X-ray"
  ∉ history (purge_containing sample_ctx 5 "X" chat_world).2.
Proof.
  apply (purge_containing_literal sample_ctx 5 "X" chat_world).
  - reflexivity.
  - apply (bool_decide_unpack _). by vm_compute.
  - apply (bool_decide_unpack _). by vm_compute.
  - by exists "an ", "-ray".
Defined.

(** The purge is case-sensitive: a purge of ["X"] removes ["an X-ray"] and
    keeps ["x marks the spot"]. *)
Example purge_containing_case_sensitive :
  history (purge_containing sample_ctx 5 "X" chat_world).2
  = [ sample_message 3 (sample_user 42 "guy") "x marks the spot";
      sample_message 1 (sample_user 42 "guy") "hello" ].
Proof. reflexivity. Qed.

(** C9: every purge variant scans a bounded window and reports the number
    of messages that were removed.  The plain purge without an amount is
    the purge of 100; the plain purge removes the newest [limit] messages
    and nothing else; purge-by-id scans the newest 1000; purge-containing
    and purge-by-user scan the newest [amount]. *)
Theorem purge_bounded_and_counted ctx w :
  purge ctx None w = purge ctx (Some 100) w
  ∧ (∀ limit, fault w (ChannelPurge limit) = None →
       purged_within limit w (purge ctx (Some limit) w)
       ∧ history (purge ctx (Some limit) w).2 = drop (Z.to_nat limit) (history w))
  ∧ (∀ id ids, fault w (ChannelPurge 1000) = None →
       purged_within 1000 w (purge_id ctx (id :: ids) w))
  ∧ (∀ amount message_contents, fault w (ChannelPurge amount) = None →
       purged_within amount w (purge_containing ctx amount message_contents w))
  ∧ (∀ amount member members, fault w (ChannelPurge amount) = None →
       purged_within amount w (purge_user ctx amount (member :: members) w)).
Proof.
  split; [done |]. split; [| split; [| split]].
  - intros limit Hf. split.
    + by apply purge_then_report.
    + unfold purge, mbind, Cmd_bind. simpl.
      rewrite (channel_purge_run _ _ _ Hf). simpl.
      by rewrite filter_none_kept.
  - intros id ids Hf. by apply purge_then_report.
  - intros amount message_contents Hf. by apply purge_then_report.
  - intros amount member members Hf. by apply purge_then_report.
Qed.

Lemma purge_bounded_and_counted_witness :
  purged_within 2 chat_world (purge sample_ctx (Some 2) chat_world)
  ∧ purged_within 1000 chat_world (purge_id sample_ctx [42] chat_world).
Proof.
  pose proof (purge_bounded_and_counted sample_ctx chat_world)
    as (_ & Hplain & Hid & _).
  split.
  - exact (proj1 (Hplain 2 eq_refl)).
  - exact (Hid 42 [] eq_refl).
Defined.

(** ** Python helpers: [groupby] and [max] *)

Section Groupby.
Context {A K : Type} `{EqDecision K}.
Variable key : A → K.

Lemma groupby_nil_inv (xs : list A) : groupby key xs = [] → xs = [].
Proof.
  destruct xs as [| x xs]; [done |]. simpl.
  destruct (groupby key xs) as [| [k run] runs]; [done |].
  by destruct (decide (key x = k)).
Qed.

(** The first run starts with the first item and carries its key. *)
Lemma groupby_head (x : A) (xs : list A) k run runs :
  groupby key (x :: xs) = (k, run) :: runs → k = key x.
Proof.
  simpl. destruct (groupby key xs) as [| [k' run'] runs'].
  - by intros [= <- _ _].
  - destruct (decide (key x = k')) as [-> |]; by intros [= <- _ _].
Qed.

(** The runs, put one after the other, are the input. *)
Lemma groupby_concat (xs : list A) : concat ((groupby key xs).*2) = xs.
Proof.
  induction xs as [| x xs IH]; [done |]. simpl.
  destruct (groupby key xs) as [| [k run] runs] eqn:Hg.
  - by apply groupby_nil_inv in Hg as ->.
  - destruct (decide (key x = k)); simpl in *; by rewrite IH.
Qed.

(** The key of every item heads one of the runs. *)
Lemma groupby_keys_complete (xs : list A) (x : A) :
  x ∈ xs → key x ∈ (groupby key xs).*1.
Proof.
  induction xs as [| y xs IH]; [by intros ?%not_elem_of_nil |].
  intros Hx. simpl.
  destruct (groupby key xs) as [| [k run] runs] eqn:Hg.
  - apply groupby_nil_inv in Hg as ->.
    apply list_elem_of_singleton in Hx as ->. simpl. by left.
  - apply elem_of_cons in Hx as [-> | Hx].
    + destruct (decide (key y = k)) as [-> |]; simpl; by left.
    + specialize (IH Hx).
      destruct (decide (key y = k)); simpl in *; [done | by right].
Qed.

Variable rank : K → Z.
Hypothesis rank_inj : ∀ k k', rank k = rank k' → k = k'.

(** In a list sorted by key, an item whose key differs from the key of
    its successor shares its key with nothing that follows. *)
Lemma sorted_key_change (x h : A) (xs : list A) (y : A) :
  StronglySorted (by_rank key rank) (x :: h :: xs) →
  key x ≠ key h → y ∈ h :: xs → key y ≠ key x.
Proof.
  intros Hsorted Hne Hy Heq.
  apply StronglySorted_inv in Hsorted as [Hrest Hx].
  apply StronglySorted_inv in Hrest as [_ Hh].
  assert (Hxh : by_rank key rank x h) by (rewrite Forall_forall in Hx; apply Hx; by left).
  assert (Hhy : rank (key h) ≤ rank (key y)).
  { apply elem_of_cons in Hy as [-> | Hy]; [lia |].
    rewrite Forall_forall in Hh. by apply Hh. }
  unfold by_rank in Hxh. rewrite Heq in Hhy.
  apply Hne, rank_inj. lia.
Qed.

(** On a list sorted by key the runs of [groupby] are the classes of the
    key: no key heads two runs, and the run of a key holds exactly the
    items of that key, in their order, at least one. *)
Lemma groupby_sorted (xs : list A) :
  StronglySorted (by_rank key rank) xs →
  NoDup (groupby key xs).*1
  ∧ ∀ k run, (k, run) ∈ groupby key xs →
             run = filter (λ x, key x = k) xs ∧ run ≠ [].
Proof.
  induction xs as [| x xs IH]; intros Hsorted.
  - simpl. split; [constructor | by intros k run ?%not_elem_of_nil].
  - pose proof Hsorted as Hsorted'.
    apply StronglySorted_inv in Hsorted' as [Hrest _].
    destruct (IH Hrest) as [Hnd Hruns]. simpl.
    destruct (groupby key xs) as [| [k run] runs] eqn:Hg.
    + apply groupby_nil_inv in Hg as ->. split.
      * simpl. apply NoDup_singleton.
      * intros k run [= -> ->]%list_elem_of_singleton.
        by rewrite filter_cons_True, filter_nil.
    + destruct xs as [| h xs]; [done |].
      pose proof (groupby_head _ _ _ _ _ Hg) as ->.
      destruct (decide (key x = key h)) as [Heq | Hne].
      * split; [exact Hnd |].
        intros k run' [[= -> ->] | Hin]%elem_of_cons.
        -- destruct (Hruns (key h) run) as [-> _]; [by left |].
           by rewrite (filter_cons_True _ x).
        -- destruct (Hruns k run') as [-> Hne']; [by right |].
           split; [| done]. rewrite (filter_cons_False _ x); [done |].
           intros Hk. rewrite fmap_cons in Hnd.
           apply NoDup_cons in Hnd as [Hfresh _]. apply Hfresh.
           apply list_elem_of_fmap. eexists (k, _).
           split; [| exact Hin]. simpl. congruence.
      * assert (Hfresh : ∀ y, y ∈ h :: xs → key y ≠ key x).
        { intros y Hy. by apply (sorted_key_change x h xs y). }
        split.
        -- rewrite fmap_cons. apply NoDup_cons. split; [| exact Hnd].
           intros [[k' run'] [Hk Hin]]%list_elem_of_fmap. simpl in Hk.
           destruct (Hruns k' run' Hin) as [-> Hnonempty].
           destruct (filter (λ x0, key x0 = k') (h :: xs)) as [| y ys] eqn:Hf;
             [done |].
           assert (Hy : y ∈ filter (λ x0, key x0 = k') (h :: xs))
             by (rewrite Hf; by left).
           apply list_elem_of_filter in Hy as [Hky Hy].
           apply (Hfresh y Hy). congruence.
        -- intros k' run' [[= -> ->] | Hin]%elem_of_cons.
           ++ split; [| done]. rewrite filter_cons_True by done. f_equal.
              symmetry. apply elem_of_nil_inv. intros y Hy.
              apply list_elem_of_filter in Hy as [Hky Hy]. by apply (Hfresh y).
           ++ destruct (Hruns k' run' Hin) as [-> Hnonempty].
              split; [| done]. rewrite (filter_cons_False _ x); [done |].
              intros Hk.
              destruct (filter (λ x0, key x0 = k') (h :: xs)) as [| y ys] eqn:Hf;
                [done |].
              assert (Hy : y ∈ filter (λ x0, key x0 = k') (h :: xs))
                by (rewrite Hf; by left).
              apply list_elem_of_filter in Hy as [Hky Hy].
              apply (Hfresh y Hy). congruence.
Qed.
End Groupby.

Lemma max_by_greatest {A} (key : A → Z) (x : A) (xs : list A) :
  max_by key x xs ∈ x :: xs
  ∧ ∀ y, y ∈ x :: xs → key y ≤ key (max_by key x xs).
Proof.
  unfold max_by. revert x. induction xs as [| z xs IH]; intros x; simpl.
  - split; [by left |]. by intros y ->%list_elem_of_singleton.
  - destruct (IH (if bool_decide (key x < key z) then z else x)) as [Hin Hmax].
    split.
    + apply elem_of_cons in Hin as [-> | Hin].
      * case_bool_decide; [right; by left | by left].
      * right. by right.
    + intros y Hy.
      assert (Hbest : key x ≤ key (if bool_decide (key x < key z) then z else x)
                      ∧ key z ≤ key (if bool_decide (key x < key z) then z else x))
        by (case_bool_decide; lia).
      pose proof (Hmax _ (list_elem_of_here _ _)) as Htop.
      apply elem_of_cons in Hy as [-> | Hy]; [lia |].
      apply elem_of_cons in Hy as [-> | Hy]; [lia |].
      apply Hmax. by right.
Qed.

Lemma foldl_add_field {G} (f : G → string * string) (groups : list G) (e : Embed.t) :
  foldl (λ response group, Embed.add_field (f group).1 (f group).2 true response)
    e groups
  = {| Embed.title := Embed.title e;
       Embed.description := Embed.description e;
       Embed.colour := Embed.colour e;
       Embed.footer := Embed.footer e;
       Embed.fields :=
         Embed.fields e
           ++ ((λ group, {| Embed.name := (f group).1; Embed.value := (f group).2;
                            Embed.inline := true |}) <$> groups) |}.
Proof.
  revert e. induction groups as [| g groups IH]; intros e; simpl.
  - rewrite app_nil_r. by destruct e.
  - rewrite IH. simpl. by rewrite <- app_assoc.
Qed.

Lemma type_rank_inj (t t' : InfractionType) : type_rank t = type_rank t' → t = t'.
Proof. by destruct t, t'. Qed.

Lemma insert_by_perm key r sorted : insert_by key r sorted ≡ₚ r :: sorted.
Proof.
  induction sorted as [| r' sorted IH]; simpl; [done |].
  case_bool_decide; [done |]. rewrite IH. apply Permutation_swap.
Qed.

Lemma order_by_perm key rows : order_by key rows ≡ₚ rows.
Proof.
  induction rows as [| r rows IH]; simpl; [done |].
  unfold order_by in *. simpl. by rewrite insert_by_perm, IH.
Qed.

Lemma insert_by_sorted key r sorted :
  StronglySorted (by_key key) sorted →
  StronglySorted (by_key key) (insert_by key r sorted).
Proof.
  induction sorted as [| r' sorted IH]; intros Hsorted; simpl.
  - by repeat constructor.
  - apply StronglySorted_inv in Hsorted as [Hrest Hhead].
    case_bool_decide as Hle.
    + constructor; [by constructor |].
      constructor; [done |].
      eapply Forall_impl; [exact Hhead |].
      intros r''. unfold by_key. lia.
    + constructor; [by apply IH |].
      rewrite insert_by_perm. constructor; [| done].
      unfold by_key. lia.
Qed.

Lemma order_by_sorted key rows : StronglySorted (by_key key) (order_by key rows).
Proof.
  induction rows as [| r rows IH]; [constructor |].
  by apply insert_by_sorted.
Qed.

Lemma db_select_order_by_rows cond key w :
  rows_of (db_select_order_by cond key) w
  = order_by key (filter (λ r, cond r = true) (infraction_db (db w))).
Proof. reflexivity. Qed.

(** What an [ORDER BY] query returns: the rows of the table that satisfy
    the condition, each as often as the table has it, in ascending order of
    the key. *)
Lemma db_select_order_by_sorted cond key w :
  rows_of (db_select_order_by cond key) w
    ≡ₚ filter (λ r, cond r = true) (infraction_db (db w))
  ∧ StronglySorted (by_key key) (rows_of (db_select_order_by cond key) w).
Proof.
  rewrite db_select_order_by_rows. split.
  - apply order_by_perm.
  - apply order_by_sorted.
Qed.

(** ** Per-user history *)

Lemma user_query_run ctx user w :
  user_query ctx user w = (Returned (rows_of (user_query ctx user) w), w).
Proof. reflexivity. Qed.

Lemma user_query_rows ctx user w :
  rows_of (user_query ctx user) w
    ≡ₚ filter (λ r, Infraction.guild_id r = Guild.id (Context.guild ctx)
                    ∧ Infraction.user_id r = User.id user)
         (infraction_db (db w))
  ∧ StronglySorted (by_key (λ r, type_rank (Infraction.type r)))
      (rows_of (user_query ctx user) w).
Proof.
  unfold user_query.
  destruct (db_select_order_by_sorted
              (λ r, bool_decide (Infraction.guild_id r = Guild.id (Context.guild ctx))
                    && bool_decide (Infraction.user_id r = User.id user))
              (λ r, type_rank (Infraction.type r)) w) as [Hperm Hsorted].
  split; [| exact Hsorted].
  rewrite Hperm. erewrite list_filter_iff; [reflexivity |].
  intros r. simpl. by rewrite andb_true_iff, !bool_decide_eq_true.
Qed.

(** What [infraction_user] renders for a run of [groupby] is the field of
    that section: the heading of the type, and under it each record by its
    id and creation time. *)
Lemma user_field_section str_datetime (group : InfractionType * list Infraction.t) :
  {| Embed.name := (user_field str_datetime group).1;
     Embed.value := (user_field str_datetime group).2;
     Embed.inline := true |}
  = section_field str_datetime group.
Proof. destruct group as [t entries]. by destruct t. Qed.

(** C8: the per-user history.  The rows are the records of the guild and
    the user.  With no rows the command sends the single embed titled
    [No recorded infractions ...], which has no fields.  With rows, the
    footer states their number and points to a row whose [created_on] no
    other row exceeds, and the fields are one section per infraction type
    that occurs among the rows, each section listing exactly the rows of
    its type: the field of a section is headed by its type and has one
    line per record, showing the id and the creation time of the record. *)
Theorem user_history_grouped str_datetime ctx user w :
  rows_of (user_query ctx user) w
    ≡ₚ filter (λ r, Infraction.guild_id r = Guild.id (Context.guild ctx)
                    ∧ Infraction.user_id r = User.id user)
         (infraction_db (db w))
  ∧ (rows_of (user_query ctx user) w = [] →
     infraction_user str_datetime ctx user w
     = (Returned (),
        log_sent (Embed.make ("No recorded infractions for `" +:+ User.str user
                                +:+ "` (`" +:+ str_int (User.id user) +:+ "`).")
                    None blue) w))
  ∧ (rows_of (user_query ctx user) w ≠ [] →
     ∃ most_recent e sections,
       infraction_user str_datetime ctx user w = (Returned (), log_sent e w)
       ∧ most_recent ∈ rows_of (user_query ctx user) w
       ∧ (∀ r, r ∈ rows_of (user_query ctx user) w →
               Infraction.created_on r ≤ Infraction.created_on most_recent)
       ∧ Embed.footer e
         = Some {| Embed.text :=
                     "total infractions: "
                       +:+ str_int (Z.of_nat (length (rows_of (user_query ctx user) w)))
                       +:+ ", most recent: #" +:+ str_int (Infraction.id most_recent)
                       +:+ " at " +:+ str_datetime (Infraction.created_on most_recent);
                   Embed.icon_url := Some (User.avatar_url user) |}
       ∧ Embed.fields e = section_field str_datetime <$> sections
       ∧ NoDup sections.*1
       ∧ (∀ t, t ∈ sections.*1
               ↔ ∃ r, r ∈ rows_of (user_query ctx user) w ∧ Infraction.type r = t)
       ∧ (∀ t entries, (t, entries) ∈ sections →
            entries = filter (λ r, Infraction.type r = t)
                        (rows_of (user_query ctx user) w))).
Proof.
  destruct (user_query_rows ctx user w) as [Hperm Hsorted].
  split; [exact Hperm |].
  unfold infraction_user, mbind, Cmd_bind. rewrite user_query_run.
  destruct (rows_of (user_query ctx user) w) as [| row rows'] eqn:Hrows.
  - split; [done |]. by intros [].
  - split; [done |]. intros _.
    destruct (max_by_greatest Infraction.created_on row rows') as [Hin Hmax].
    destruct (groupby_sorted Infraction.type type_rank type_rank_inj
                (row :: rows') Hsorted) as [Hnd Hruns].
    exists (max_by Infraction.created_on row rows'). eexists.
    exists (groupby Infraction.type (row :: rows')).
    split; [reflexivity |].
    split; [exact Hin |]. split; [exact Hmax |].
    rewrite (foldl_add_field (user_field str_datetime)).
    split; [reflexivity |].
    split; [apply list_fmap_ext; intros i g _; apply user_field_section |].
    split; [exact Hnd |].
    split.
    + intros t. split.
      * intros [[t' run] [-> Hg]]%list_elem_of_fmap. simpl.
        destruct (Hruns t' run Hg) as [Heq Hne].
        destruct run as [| r rs]; [done |].
        assert (Hr : r ∈ filter (λ x, Infraction.type x = t') (row :: rows'))
          by (rewrite <- Heq; by left).
        apply list_elem_of_filter in Hr as [Ht Hr]. by exists r.
      * intros (r & Hr & <-). by apply groupby_keys_complete.
    + intros t entries Hg. by destruct (Hruns t entries Hg).
Qed.

Lemma user_history_grouped_witness :
  ∃ most_recent e sections,
    infraction_user str_int sample_ctx (sample_user 42 "guy") history_world
    = (Returned (), log_sent e history_world)
    ∧ most_recent ∈ rows_of (user_query sample_ctx (sample_user 42 "guy")) history_world
    ∧ (∀ r, r ∈ rows_of (user_query sample_ctx (sample_user 42 "guy")) history_world →
            Infraction.created_on r ≤ Infraction.created_on most_recent)
    ∧ Embed.footer e
      = Some {| Embed.text :=
                  "total infractions: "
                    +:+ str_int (Z.of_nat (length (rows_of (user_query sample_ctx
                                                              (sample_user 42 "guy"))
                                                     history_world)))
                    +:+ ", most recent: #" +:+ str_int (Infraction.id most_recent)
                    +:+ " at " +:+ str_int (Infraction.created_on most_recent);
                Embed.icon_url := Some (User.avatar_url (sample_user 42 "guy")) |}
    ∧ Embed.fields e = section_field str_int <$> sections
    ∧ NoDup sections.*1
    ∧ (∀ t, t ∈ sections.*1
            ↔ ∃ r, r ∈ rows_of (user_query sample_ctx (sample_user 42 "guy"))
                         history_world
                   ∧ Infraction.type r = t)
    ∧ (∀ t entries, (t, entries) ∈ sections →
         entries = filter (λ r, Infraction.type r = t)
                     (rows_of (user_query sample_ctx (sample_user 42 "guy"))
                        history_world)).
Proof.
  apply (proj2 (proj2 (user_history_grouped str_int sample_ctx
                         (sample_user 42 "guy") history_world))).
  by vm_compute.
Defined.

(** The example of the spec: for records of types note, note and warning the
    history has a section of two notes and a section of one warning, the
    total is 3, and the most recent record is the one created last. *)
Example user_history_note_note_warning :
  sent (infraction_user str_int sample_ctx (sample_user 42 "guy") history_world).2
  = [ {| Embed.title := "Infractions for `guy#1337` (`42`)";
         Embed.description := None;
         Embed.colour := blue;
         Embed.footer :=
           Some {| Embed.text := "total infractions: 3, most recent: #3 at 300";
                   Embed.icon_url := Some "https://cdn.example/guy" |};
         Embed.fields :=
           [ {| Embed.name := "📔 notes";
                Embed.value := "• [`1`] on 100" +:+ nl +:+ "• [`3`] on 300";
                Embed.inline := true |};
             {| Embed.name := "⚠ warnings";
                Embed.value := "• [`2`] on 200";
                Embed.inline := true |} ] |} ].
Proof. reflexivity. Qed.

(** ** Listing *)

Lemma list_line_unresolved str_datetime r w :
  users w !! Infraction.user_id r = None →
  list_line str_datetime r w = (Raised none_has_no_id, w).
Proof.
  intros Hu. unfold list_line, get_user, mbind, Cmd_bind. by rewrite Hu.
Qed.

Lemma list_line_resolved str_datetime r u w :
  users w !! Infraction.user_id r = Some u →
  list_line str_datetime r w = (Returned (resolved_line str_datetime u r), w).
Proof.
  intros Hu. unfold list_line, get_user, mbind, Cmd_bind. by rewrite Hu.
Qed.

(** The loop stops at the first row whose user is not in the cache. *)
Lemma for_each_list_line_unresolved str_datetime rows r w :
  r ∈ rows →
  users w !! Infraction.user_id r = None →
  for_each (list_line str_datetime) rows w = (Raised none_has_no_id, w).
Proof.
  induction rows as [| r' rows IH]; [by intros ?%not_elem_of_nil |].
  intros Hr Hu. simpl. unfold mbind, Cmd_bind at 1.
  destruct (users w !! Infraction.user_id r') as [u |] eqn:Hu'.
  - rewrite (list_line_resolved _ _ u) by done.
    apply elem_of_cons in Hr as [-> | Hr]; [congruence |].
    unfold mbind, Cmd_bind. by rewrite IH.
  - by rewrite list_line_unresolved.
Qed.

(** [infraction_list] is its query, then the loop, then one embed. *)
Lemma infraction_list_unfold str_datetime ctx types w :
  infraction_list str_datetime ctx types w
  = match for_each (list_line str_datetime) (rows_of (list_query ctx types).1 w) w with
    | (Returned lines, w') =>
        send (Embed.make (list_query ctx types).2
                (Some (str_or (str_join nl lines)
                         "Seems like there's nothing here yet."))
                blue) w'
    | (Raised e, w') => (Raised e, w')
    end.
Proof. by destruct types. Qed.

(** Whatever the types asked for, a row of the result whose user is not in
    the cache makes [infraction_list] raise before anything is sent. *)
Lemma infraction_list_unresolved str_datetime ctx types w r :
  r ∈ rows_of (list_query ctx types).1 w →
  users w !! Infraction.user_id r = None →
  infraction_list str_datetime ctx types w = (Raised none_has_no_id, w).
Proof.
  intros Hr Hu. rewrite infraction_list_unfold.
  by rewrite (for_each_list_line_unresolved _ _ r).
Qed.

(** C7 fails on the code for a row whose user cannot be resolved: the
    branch meant to render the [unknown user] fallback reads [user.id] of
    [None].  Listing the guild of [ledger_world], whose one record names a
    user that is not in the cache, raises and sends nothing. *)
Theorem infraction_list_unknown_user_raises str_datetime :
  infraction_list str_datetime sample_ctx [] ledger_world
  = (Raised none_has_no_id, ledger_world).
Proof. reflexivity. Qed.

(** The detail lookup of the same record does fall back to the raw ids. *)
Example infraction_detail_unknown_user :
  sent (infraction_detail str_int sample_ctx 1 ledger_world).2
  = [ {| Embed.title := "Infraction: `1`";
         Embed.description := None;
         Embed.colour := blue;
         Embed.footer :=
           Some {| Embed.text := "Authored by unknown user (ID: 7)";
                   Embed.icon_url := None |};
         Embed.fields :=
           [ {| Embed.name := "User"; Embed.value := "`42`"; Embed.inline := true |};
             {| Embed.name := "Type"; Embed.value := "📔 Note"; Embed.inline := true |};
             {| Embed.name := "Creation"; Embed.value := "500"; Embed.inline := true |};
             {| Embed.name := "Last edited"; Embed.value := "never";
                Embed.inline := true |};
             {| Embed.name := "Reason"; Embed.value := "likes ducks";
                Embed.inline := false |} ] |} ].
Proof. reflexivity. Qed.

Lemma for_each_list_line_resolved str_datetime rows w :
  (∀ r, r ∈ rows → is_Some (users w !! Infraction.user_id r)) →
  ∃ lines,
    for_each (list_line str_datetime) rows w = (Returned lines, w)
    ∧ Forall2 (λ r line, ∃ u, users w !! Infraction.user_id r = Some u
                              ∧ line = resolved_line str_datetime u r)
        rows lines.
Proof.
  induction rows as [| r rows IH]; intros Hall.
  - exists []. by split.
  - destruct (Hall r) as [u Hu]; [by left |].
    destruct IH as (lines & Hrun & Hlines); [intros r' Hr'; apply Hall; by right |].
    exists (resolved_line str_datetime u r :: lines). split.
    + simpl. unfold mbind, Cmd_bind at 1. rewrite (list_line_resolved _ _ u) by done.
      unfold mbind, Cmd_bind. by rewrite Hrun.
    + constructor; [by exists u | done].
Qed.

(** When the user of every listed row is in the cache, the list is one line
    per row in ascending order of creation, and the placeholder when there
    is no row. *)
Lemma infraction_list_resolved str_datetime ctx types w :
  (∀ r, r ∈ rows_of (list_query ctx types).1 w →
        is_Some (users w !! Infraction.user_id r)) →
  ∃ lines,
    infraction_list str_datetime ctx types w
    = (Returned (),
       log_sent (Embed.make (list_query ctx types).2
                   (Some (str_or (str_join nl lines)
                            "Seems like there's nothing here yet."))
                   blue) w)
    ∧ Forall2 (λ r line, ∃ u, users w !! Infraction.user_id r = Some u
                              ∧ line = resolved_line str_datetime u r)
        (rows_of (list_query ctx types).1 w) lines
    ∧ StronglySorted (by_key Infraction.created_on)
        (rows_of (list_query ctx types).1 w).
Proof.
  intros Hall.
  destruct (for_each_list_line_resolved str_datetime _ w Hall)
    as (lines & Hrun & Hlines).
  exists lines. split; [| split; [exact Hlines |]].
  - rewrite infraction_list_unfold. by rewrite Hrun.
  - destruct types; apply db_select_order_by_sorted.
Qed.

Example infraction_list_empty str_datetime :
  sent (infraction_list str_datetime sample_ctx [] empty_world).2
  = [ Embed.make "All infractions on ducks"
        (Some "Seems like there's nothing here yet.") blue ].
Proof. reflexivity. Qed.


(** * Further properties of the commands *)

(** ** What each command does to the store *)

Lemma db_ok_insert (d : Database) (row : Infraction.t) :
  db_ok d →
  Infraction.id row = next_id d →
  db_ok {| infraction_db := infraction_db d ++ [row]; next_id := next_id d + 1 |}.
Proof.
  intros [Hnd Hlt] Hid. split; simpl.
  - rewrite fmap_app. apply NoDup_app. split; [done |]. split.
    + intros i [r [-> Hr]]%list_elem_of_fmap [= Heq]%list_elem_of_singleton.
      specialize (Hlt r Hr). lia.
    + apply NoDup_singleton.
  - intros r [Hr | ->%list_elem_of_singleton]%elem_of_app.
    + specialize (Hlt r Hr). lia.
    + lia.
Qed.

Lemma list_line_world str_datetime r w : (list_line str_datetime r w).2 = w.
Proof.
  destruct (users w !! Infraction.user_id r) as [u |] eqn:Hu.
  - by rewrite (list_line_resolved _ _ u).
  - by rewrite list_line_unresolved.
Qed.

(** The loop of [infraction_list] only reads. *)
Lemma for_each_list_line_world str_datetime rows w :
  (for_each (list_line str_datetime) rows w).2 = w.
Proof.
  induction rows as [| r rows IH]; [done |].
  simpl. unfold mbind, Cmd_bind at 1.
  pose proof (list_line_world str_datetime r w) as Hline.
  destruct (list_line str_datetime r w) as [[line | e] w1]; simpl in Hline; subst w1;
    [| done].
  unfold mbind, Cmd_bind.
  destruct (for_each (list_line str_datetime) rows w) as [[lines | e] w1];
    simpl in IH; by subst w1.
Qed.

(** [infraction_list] either raises in the loop, with the world as it was,
    or returns after sending one embed. *)
Lemma infraction_list_outcome str_datetime ctx types w :
  (∃ e, infraction_list str_datetime ctx types w = (Raised e, w))
  ∨ (∃ e, infraction_list str_datetime ctx types w = (Returned (), log_sent e w)).
Proof.
  rewrite infraction_list_unfold.
  pose proof (for_each_list_line_world str_datetime
                (rows_of (list_query ctx types).1 w) w) as Hworld.
  destruct (for_each _ _ w) as [[lines | e] w1]; simpl in Hworld; subst w1; eauto.
Qed.

(** [infraction_user] returns after sending one embed. *)
Lemma infraction_user_outcome str_datetime ctx user w :
  ∃ e, infraction_user str_datetime ctx user w = (Returned (), log_sent e w).
Proof.
  unfold infraction_user, mbind, Cmd_bind. rewrite user_query_run.
  destruct (rows_of (user_query ctx user) w); eauto.
Qed.

(** [infraction_detail] returns after sending one embed. *)
Lemma infraction_detail_outcome str_datetime ctx id_ w :
  ∃ e, infraction_detail str_datetime ctx id_ w = (Returned (), log_sent e w).
Proof.
  unfold infraction_detail, db_select, get_user, mbind, Cmd_bind. simpl.
  destruct (head _); [| eauto].
  destruct (users w !! _); eauto.
Qed.

(** A purge variant raises what the platform answers, with a history that
    may have lost messages, or returns after one purge request and one
    embed; the store is as it was either way. *)
Lemma purge_then_report_outcome ctx limit check description w :
  (∃ e h, (deleted ← channel_purge limit check;
           send (purge_report ctx (length deleted) description)) w
          = (Raised e, set_history h w))
  ∨ (∃ e h,
       (deleted ← channel_purge limit check;
        send (purge_report ctx (length deleted) description)) w
       = (Returned (), log_sent e (log_request (ChannelPurge limit) (set_history h w)))).
Proof.
  unfold mbind, Cmd_bind, channel_purge.
  destruct (fault w (ChannelPurge limit)); [left | right]; eauto.
Qed.

Lemma kick_outcome ctx member reason w :
  (∃ e, kick ctx member reason w = (Returned (), log_sent e w))
  ∨ (∃ e, kick ctx member reason w = (Raised e, w))
  ∨ (∃ e row,
       Infraction.id row = next_id (db w)
       ∧ kick ctx member reason w
         = (Returned (),
            log_sent e
              (set_db {| infraction_db := infraction_db (db w) ++ [row];
                         next_id := next_id (db w) + 1 |}
                 (log_request (kick_request ctx member reason) w)))).
Proof.
  unfold kick. destruct (hierarchy_blocks ctx member); [left; eauto |]. run.
  fold (kick_request ctx member reason).
  destruct (fault w _); [right; left; eauto |].
  right. right. eexists _, _. split; [| reflexivity]. reflexivity.
Qed.

Lemma ban_outcome ctx member reason w :
  (∃ e, ban ctx member reason w = (Returned (), log_sent e w))
  ∨ (∃ e, ban ctx member reason w = (Raised e, w))
  ∨ (∃ e row,
       Infraction.id row = next_id (db w)
       ∧ ban ctx member reason w
         = (Returned (),
            log_sent e
              (set_db {| infraction_db := infraction_db (db w) ++ [row];
                         next_id := next_id (db w) + 1 |}
                 (log_request (ban_request ctx member reason) w)))).
Proof.
  unfold ban. destruct (hierarchy_blocks ctx member); [left; eauto |]. run.
  fold (ban_request ctx member reason).
  destruct (fault w _); [right; left; eauto |].
  right. right. eexists _, _. split; [| reflexivity]. reflexivity.
Qed.

Lemma note_outcome ctx user text w :
  ∃ e row,
    Infraction.id row = next_id (db w)
    ∧ note ctx user text w
      = (Returned (),
         log_sent e (set_db {| infraction_db := infraction_db (db w) ++ [row];
                               next_id := next_id (db w) + 1 |} w)).
Proof. eexists _, _. split; [| reflexivity]. reflexivity. Qed.

Lemma warn_outcome ctx user reason w :
  ∃ e row,
    Infraction.id row = next_id (db w)
    ∧ warn ctx user reason w
      = (Returned (),
         log_sent e (set_db {| infraction_db := infraction_db (db w) ++ [row];
                               next_id := next_id (db w) + 1 |} w)).
Proof. eexists _, _. split; [| reflexivity]. reflexivity. Qed.

Lemma purge_variants_outcome ctx w :
  (∀ limit, purge_outcome w (purge ctx limit w))
  ∧ (∀ ids, purge_outcome w (purge_id ctx ids w))
  ∧ (∀ amount text, purge_outcome w (purge_containing ctx amount text w))
  ∧ (∀ amount members, purge_outcome w (purge_user ctx amount members w)).
Proof.
  assert (Hgen : ∀ limit check description,
             purge_outcome w
               ((deleted ← channel_purge limit check;
                 send (purge_report ctx (length deleted) description)) w)).
  { intros limit check description.
    destruct (purge_then_report_outcome ctx limit check description w)
      as [(e & h & ->) | (e & h & ->)]; [right; left | right; right]; eauto. }
  repeat split.
  - intros limit. apply Hgen.
  - intros [| id ids]; [left; eauto | apply Hgen].
  - intros amount text. apply Hgen.
  - intros amount [| member members]; [left; eauto | apply Hgen].
Qed.

(** X1: the purge commands never write to the ledger: whatever the limit,
    the targets and the answer of the platform, the store after a purge
    variant is the store before it. *)
Theorem purges_leave_ledger_alone ctx w :
  (∀ limit, db (purge ctx limit w).2 = db w)
  ∧ (∀ ids, db (purge_id ctx ids w).2 = db w)
  ∧ (∀ amount text, db (purge_containing ctx amount text w).2 = db w)
  ∧ (∀ amount members, db (purge_user ctx amount members w).2 = db w).
Proof.
  destruct (purge_variants_outcome ctx w) as (Hp & Hi & Hc & Hu).
  assert (Hgen : ∀ out, purge_outcome w out → db out.2 = db w).
  { intros out [[e ->] | [(e & h & ->) | (e & h & limit & ->)]]; reflexivity. }
  repeat split; intros; by apply Hgen.
Qed.


(** X3: every command reports exactly once.  A command that returns has
    sent exactly one embed, a command that raises has sent none. *)
Theorem commands_report_once str_datetime ctx w :
  (∀ member reason, reports_once w (kick ctx member reason w))
  ∧ (∀ member reason, reports_once w (ban ctx member reason w))
  ∧ (∀ limit, reports_once w (purge ctx limit w))
  ∧ (∀ ids, reports_once w (purge_id ctx ids w))
  ∧ (∀ amount text, reports_once w (purge_containing ctx amount text w))
  ∧ (∀ amount members, reports_once w (purge_user ctx amount members w))
  ∧ (∀ user text, reports_once w (note ctx user text w))
  ∧ (∀ user reason, reports_once w (warn ctx user reason w))
  ∧ (∀ id_ new_reason, reports_once w (infraction_edit ctx id_ new_reason w))
  ∧ (∀ id_, reports_once w (infraction_delete ctx id_ w))
  ∧ (∀ id_, reports_once w (infraction_detail str_datetime ctx id_ w))
  ∧ (∀ types, reports_once w (infraction_list str_datetime ctx types w))
  ∧ (∀ user, reports_once w (infraction_user str_datetime ctx user w)).
Proof.
  destruct (purge_variants_outcome ctx w) as (Hp & Hi & Hc & Hu).
  assert (Hgen : ∀ out, purge_outcome w out → reports_once w out).
  { intros out [[e ->] | [(e & h & ->) | (e & h & limit & ->)]];
      unfold reports_once; simpl; eauto. }
  split_and!; intros; try (by apply Hgen).
  - destruct (kick_outcome ctx member reason w)
      as [[e ->] | [[e ->] | (e & row & _ & ->)]]; unfold reports_once; simpl; eauto.
  - destruct (ban_outcome ctx member reason w)
      as [[e ->] | [[e ->] | (e & row & _ & ->)]]; unfold reports_once; simpl; eauto.
  - unfold reports_once. simpl. eauto.
  - unfold reports_once. simpl. eauto.
  - rewrite infraction_edit_raises. unfold reports_once. simpl. eauto.
  - rewrite infraction_delete_raises. unfold reports_once. simpl. eauto.
  - destruct (infraction_detail_outcome str_datetime ctx id_ w) as [e ->].
    unfold reports_once. simpl. eauto.
  - destruct (infraction_list_outcome str_datetime ctx types w) as [[e ->] | [e ->]];
      unfold reports_once; simpl; eauto.
  - destruct (infraction_user_outcome str_datetime ctx user w) as [e ->].
    unfold reports_once. simpl. eauto.
Qed.

(** X4: no command breaks the table.  From a store where no two rows share
    an id and every id lies below the sequence, every command leads to such
    a store again. *)
Theorem store_ok_preserved str_datetime ctx w :
  store_ok w →
  (∀ member reason, store_ok (kick ctx member reason w).2)
  ∧ (∀ member reason, store_ok (ban ctx member reason w).2)
  ∧ (∀ limit, store_ok (purge ctx limit w).2)
  ∧ (∀ ids, store_ok (purge_id ctx ids w).2)
  ∧ (∀ amount text, store_ok (purge_containing ctx amount text w).2)
  ∧ (∀ amount members, store_ok (purge_user ctx amount members w).2)
  ∧ (∀ user text, store_ok (note ctx user text w).2)
  ∧ (∀ user reason, store_ok (warn ctx user reason w).2)
  ∧ (∀ id_ new_reason, store_ok (infraction_edit ctx id_ new_reason w).2)
  ∧ (∀ id_, store_ok (infraction_delete ctx id_ w).2)
  ∧ (∀ id_, store_ok (infraction_detail str_datetime ctx id_ w).2)
  ∧ (∀ types, store_ok (infraction_list str_datetime ctx types w).2)
  ∧ (∀ user, store_ok (infraction_user str_datetime ctx user w).2).
Proof.
  intros Hok. unfold store_ok in *.
  destruct (purge_variants_outcome ctx w) as (Hp & Hi & Hc & Hu).
  assert (Hgen : ∀ out, purge_outcome w out → db_ok (db out.2)).
  { by intros out [[e ->] | [(e & h & ->) | (e & h & limit & ->)]]. }
  split_and!; intros.
  - destruct (kick_outcome ctx member reason w)
      as [[e ->] | [[e ->] | (e & row & Hid & ->)]]; simpl; [done | done |].
    by apply db_ok_insert.
  - destruct (ban_outcome ctx member reason w)
      as [[e ->] | [[e ->] | (e & row & Hid & ->)]]; simpl; [done | done |].
    by apply db_ok_insert.
  - apply Hgen, Hp.
  - apply Hgen, Hi.
  - apply Hgen, Hc.
  - apply Hgen, Hu.
  - by apply db_ok_insert.
  - by apply db_ok_insert.
  - by rewrite infraction_edit_raises.
  - by rewrite infraction_delete_raises.
  - by destruct (infraction_detail_outcome str_datetime ctx id_ w) as [e ->].
  - by destruct (infraction_list_outcome str_datetime ctx types w)
      as [[e ->] | [e ->]].
  - by destruct (infraction_user_outcome str_datetime ctx user w) as [e ->].
Qed.

Lemma store_ok_preserved_witness :
  store_ok (note sample_ctx (sample_user 42 "guy") "likes ducks" ledger_world).2
  ∧ store_ok (infraction_delete sample_ctx 1 ledger_world).2.
Proof.
  assert (Hok : store_ok ledger_world).
  { split.
    - apply (bool_decide_unpack _). by vm_compute.
    - intros r Hr. simpl in Hr.
      apply elem_of_cons in Hr as [-> | Hr]; [by vm_compute |].
      apply list_elem_of_singleton in Hr as ->. by vm_compute. }
  destruct (store_ok_preserved str_int sample_ctx ledger_world Hok)
    as (_ & _ & _ & _ & _ & _ & Hnote & _ & _ & Hdelete & _).
  split; [apply Hnote | apply Hdelete].
Defined.

(** ** Detail lookup *)

Lemma select_none_in_scope ctx id_ (rows : list Infraction.t) :
  (∀ r, r ∈ rows → ¬ in_scope ctx id_ r) →
  filter (λ r, where_id_guild id_ (Guild.id (Context.guild ctx)) r = true) rows = [].
Proof.
  intros Hnone. apply elem_of_nil_inv. intros r [Hc Hr]%list_elem_of_filter.
  apply (Hnone r Hr). by apply where_id_guild_in_scope.
Qed.

(** Under the primary key the first row a scoped query returns is the row
    of that id. *)
Lemma select_in_scope ctx id_ (rows : list Infraction.t) (r : Infraction.t) :
  NoDup (Infraction.id <$> rows) →
  r ∈ rows → in_scope ctx id_ r →
  head (filter (λ r, where_id_guild id_ (Guild.id (Context.guild ctx)) r = true) rows)
  = Some r.
Proof.
  intros Hpk Hr Hscope.
  destruct (filter _ rows) as [| x xs] eqn:Hf.
  - exfalso. apply (not_elem_of_nil r). rewrite <- Hf.
    apply list_elem_of_filter. split; [by apply where_id_guild_in_scope | done].
  - assert (Hx : x ∈ filter (λ r, where_id_guild id_ (Guild.id (Context.guild ctx)) r
                                  = true) rows) by (rewrite Hf; by left).
    apply list_elem_of_filter in Hx as [Hc Hx].
    apply where_id_guild_in_scope in Hc. simpl. f_equal.
    apply (primary_key_inj rows); [done | done | done |].
    destruct Hc, Hscope. congruence.
Qed.

Lemma detail_not_found_run str_datetime ctx id_ w :
  (∀ r, r ∈ infraction_db (db w) → ¬ in_scope ctx id_ r) →
  infraction_detail str_datetime ctx id_ w
  = (Returned (), log_sent (detail_not_found id_) w).
Proof.
  intros Hnone. unfold infraction_detail, db_select, mbind, Cmd_bind. simpl.
  by rewrite select_none_in_scope.
Qed.

Lemma detail_found_run str_datetime ctx id_ w r :
  head (filter (λ r, where_id_guild id_ (Guild.id (Context.guild ctx)) r = true)
          (infraction_db (db w))) = Some r →
  Infraction.id r = id_ →
  ∃ e, infraction_detail str_datetime ctx id_ w = (Returned (), log_sent e w)
       ∧ shows_record str_datetime w r e.
Proof.
  intros Hhead <-.
  unfold infraction_detail, db_select, get_user, mbind, Cmd_bind. simpl.
  rewrite Hhead. unfold shows_record, detail_user, detail_author.
  destruct (users w !! Infraction.user_id r) as [u |],
    (users w !! Infraction.moderator_id r) as [a |];
    (eexists; split; [reflexivity |]);
    destruct (Infraction.edited_on r); split_and!; reflexivity.
Qed.

Lemma detail_in_scope str_datetime ctx id_ w r :
  primary_key w →
  r ∈ infraction_db (db w) → in_scope ctx id_ r →
  ∃ e, infraction_detail str_datetime ctx id_ w = (Returned (), log_sent e w)
       ∧ shows_record str_datetime w r e.
Proof.
  intros Hpk Hr Hscope. apply detail_found_run; [| by destruct Hscope].
  by apply select_in_scope.
Qed.

(** X5: what the detail view shows.  Under the primary key, the detail of an
    id that a row of the invoking guild carries returns after sending the
    blue embed of that row: the five fields User, Type, Creation, Last
    edited and Reason, the user and the author resolved through the cache
    or shown by their raw ids when the cache does not know them, and
    [never] as the time of the last edit of a row that was not edited. *)
Theorem detail_shows_record str_datetime ctx id_ w r :
  primary_key w →
  r ∈ infraction_db (db w) →
  in_scope ctx id_ r →
  ∃ e, infraction_detail str_datetime ctx id_ w = (Returned (), log_sent e w)
       ∧ shows_record str_datetime w r e
       ∧ (users w !! Infraction.user_id r = None →
          field_value "User" e = Some ("`" +:+ str_int (Infraction.user_id r) +:+ "`"))
       ∧ (users w !! Infraction.moderator_id r = None →
          Embed.footer e
          = Some {| Embed.text := "Authored by unknown user (ID: "
                                    +:+ str_int (Infraction.moderator_id r) +:+ ")";
                    Embed.icon_url := None |})
       ∧ (Infraction.edited_on r = None →
          field_value "Last edited" e = Some "never").
Proof.
  intros Hpk Hr Hscope.
  destruct (detail_in_scope str_datetime ctx id_ w r Hpk Hr Hscope)
    as (e & Hrun & Hshows).
  exists e. split; [done |]. split; [done |].
  destruct Hshows as (_ & _ & _ & Huser & _ & _ & Hedited & _ & Hfooter).
  split_and!.
  - intros Hu. rewrite Huser. unfold detail_user. by rewrite Hu.
  - intros Hu. rewrite Hfooter. unfold detail_author. by rewrite Hu.
  - intros He. rewrite Hedited. by rewrite He.
Qed.

Lemma primary_key_ledger_world : primary_key ledger_world.
Proof. apply (bool_decide_unpack _). by vm_compute. Defined.

Lemma detail_shows_record_witness :
  ∃ e, infraction_detail str_int sample_ctx 1 ledger_world
       = (Returned (), log_sent e ledger_world)
       ∧ field_value "User" e = Some "`42`"
       ∧ field_value "Last edited" e = Some "never".
Proof.
  destruct (detail_shows_record str_int sample_ctx 1 ledger_world
              {| Infraction.id := 1; Infraction.type := note_t;
                 Infraction.guild_id := 1; Infraction.user_id := 42;
                 Infraction.moderator_id := 7; Infraction.reason := "likes ducks";
                 Infraction.created_on := 500; Infraction.edited_on := None |}
              primary_key_ledger_world)
    as (e & Hrun & _ & Huser & _ & Hedited).
  { apply list_elem_of_here. }
  { by split. }
  exists e. split; [exact Hrun |].
  split; [by apply Huser | by apply Hedited].
Defined.

(** X6: the detail lookup is scoped by guild and reads only.  When no row of
    the invoking guild carries the id, the command sends the red not-found
    embed and changes nothing else; under the primary key this is the case
    for every id that belongs to a row of another guild. *)
Theorem detail_scoped str_datetime ctx id_ w :
  ((∀ r, r ∈ infraction_db (db w) → ¬ in_scope ctx id_ r) →
   infraction_detail str_datetime ctx id_ w
   = (Returned (), log_sent (detail_not_found id_) w))
  ∧ (∀ r, primary_key w →
          r ∈ infraction_db (db w) →
          Infraction.id r = id_ →
          Infraction.guild_id r ≠ Guild.id (Context.guild ctx) →
          infraction_detail str_datetime ctx id_ w
          = (Returned (), log_sent (detail_not_found id_) w))
  ∧ db (infraction_detail str_datetime ctx id_ w).2 = db w.
Proof.
  split_and!.
  - apply detail_not_found_run.
  - intros r Hpk Hr Hid Hguild. apply detail_not_found_run.
    by apply (foreign_id_out_of_scope ctx id_ w r).
  - by destruct (infraction_detail_outcome str_datetime ctx id_ w) as [e ->].
Qed.

Lemma detail_scoped_witness :
  infraction_detail str_int sample_ctx 2 ledger_world
  = (Returned (), log_sent (detail_not_found 2) ledger_world)
  ∧ infraction_detail str_int sample_ctx 999 empty_world
    = (Returned (), log_sent (detail_not_found 999) empty_world).
Proof.
  split.
  - apply (proj1 (proj2 (detail_scoped str_int sample_ctx 2 ledger_world))
             {| Infraction.id := 2; Infraction.type := warning_t;
                Infraction.guild_id := 2; Infraction.user_id := 43;
                Infraction.moderator_id := 8; Infraction.reason := "spam";
                Infraction.created_on := 600; Infraction.edited_on := None |}).
    + exact primary_key_ledger_world.
    + apply list_elem_of_further, list_elem_of_here.
    + reflexivity.
    + simpl. discriminate.
  - apply (proj1 (detail_scoped str_int sample_ctx 999 empty_world)).
    intros r Hr. by apply not_elem_of_nil in Hr.
Defined.

(** ** Records written by note, warn, kick and ban *)

(** X7: note and warn always record.  There is no hierarchy check and no
    platform request: whatever the ranks, the command appends one row of
    its type for the user, the invoking guild and the invoking moderator
    with the text as given, and its one embed names the id of that row.
    The footer of a warning carries the avatar of the warned user. *)
Theorem note_warn_record ctx user text w :
  ((note ctx user text w).1 = Returned ()
   ∧ infraction_db (db (note ctx user text w).2)
     = infraction_db (db w)
         ++ [new_row w note_t (Guild.id (Context.guild ctx)) (User.id user)
               (Member.id (Context.author ctx)) text]
   ∧ requests (note ctx user text w).2 = requests w
   ∧ ∃ e, sent (note ctx user text w).2 = sent w ++ [e]
          ∧ Embed.colour e = green
          ∧ Embed.description e
            = Some ("View it in detail by using `infraction detail "
                      +:+ str_int (next_id (db w)) +:+ "`."))
  ∧ ((warn ctx user text w).1 = Returned ()
     ∧ infraction_db (db (warn ctx user text w).2)
       = infraction_db (db w)
           ++ [new_row w warning_t (Guild.id (Context.guild ctx)) (User.id user)
                 (Member.id (Context.author ctx)) text]
     ∧ requests (warn ctx user text w).2 = requests w
     ∧ ∃ e, sent (warn ctx user text w).2 = sent w ++ [e]
            ∧ field_value "Reason" e = Some (str_or text "no reason specified")
            ∧ field_value "Infraction" e
              = Some ("created with ID `" +:+ str_int (next_id (db w)) +:+ "`")
            ∧ Embed.footer e
              = Some {| Embed.text := footer_by "Authored" ctx;
                        Embed.icon_url := Some (User.avatar_url user) |}).
Proof.
  split; (split; [reflexivity |]); (split; [reflexivity |]);
    (split; [reflexivity |]); eexists; (split; [reflexivity |]);
    split_and!; reflexivity.
Qed.

(** X8: what a kick or a ban that goes through writes and reports.  The row
    keeps the reason as given, the empty one included; the audit-log reason
    handed to the platform and the Reason field of the report replace an
    empty reason by their placeholder; the Infraction field names the id of
    the row; a ban asks the platform to delete seven days of messages. *)
Theorem kick_ban_record ctx member reason w :
  hierarchy_blocks ctx member = false →
  (fault w (kick_request ctx member reason) = None →
   infraction_db (db (kick ctx member reason w).2)
   = infraction_db (db w)
       ++ [new_row w kick_t (Guild.id (Context.guild ctx)) (Member.id member)
             (Member.id (Context.author ctx)) reason]
   ∧ requests (kick ctx member reason w).2
     = requests w
         ++ [GuildKick (Guild.id (Context.guild ctx)) (Member.id member)
               ("Command invoked by " +:+ Member.str (Context.author ctx)
                  +:+ ", reason: "
                  +:+ (if decide (reason = "") then "No reason specified" else reason)
                  +:+ ".")]
   ∧ ∃ e, sent (kick ctx member reason w).2 = sent w ++ [e]
          ∧ Embed.colour e = green
          ∧ field_value "Reason" e
            = Some (if decide (reason = "") then "no reason specified" else reason)
          ∧ field_value "Infraction" e
            = Some ("created with ID `" +:+ str_int (next_id (db w)) +:+ "`"))
  ∧ (fault w (ban_request ctx member reason) = None →
     infraction_db (db (ban ctx member reason w).2)
     = infraction_db (db w)
         ++ [new_row w ban_t (Guild.id (Context.guild ctx)) (Member.id member)
               (Member.id (Context.author ctx)) reason]
     ∧ requests (ban ctx member reason w).2
       = requests w
           ++ [GuildBan (Guild.id (Context.guild ctx)) (Member.id member)
                 ("banned by command invocation from "
                    +:+ Member.str (Context.author ctx) +:+ ", reason: "
                    +:+ (if decide (reason = "") then "No reason specified" else reason)
                    +:+ ".")
                 7]
     ∧ ∃ e, sent (ban ctx member reason w).2 = sent w ++ [e]
            ∧ Embed.colour e = green
            ∧ Embed.description e
              = (if decide (reason = "") then None
                 else Some ("**Reason**: " +:+ reason))
            ∧ field_value "Reason" e
              = Some (if decide (reason = "") then "no reason specified" else reason)
            ∧ field_value "Infraction" e
              = Some ("created with ID `" +:+ str_int (next_id (db w)) +:+ "`")).
Proof.
  intros Hb. split; intros Hf.
  - unfold kick. rewrite Hb. run.
    unfold kick_request in Hf. rewrite Hf. simpl.
    split; [reflexivity |]. split; [reflexivity |].
    eexists. split; [reflexivity |].
    destruct reason; split_and!; reflexivity.
  - unfold ban. rewrite Hb. run.
    unfold ban_request in Hf. rewrite Hf. simpl.
    split; [reflexivity |]. split; [reflexivity |].
    eexists. split; [reflexivity |].
    destruct reason; split_and!; reflexivity.
Qed.

Lemma kick_ban_record_witness :
  (∃ e, sent (kick sample_ctx (sample_member 42 "guy" 5) "" empty_world).2 = [e]
        ∧ field_value "Reason" e = Some "no reason specified"
        ∧ field_value "Infraction" e = Some "created with ID `1`")
  ∧ Infraction.reason <$> infraction_db
      (db (ban sample_ctx (sample_member 42 "guy" 5) "" empty_world).2) = [""].
Proof.
  pose proof (kick_ban_record sample_ctx (sample_member 42 "guy" 5) "" empty_world
                eq_refl) as [Hkick Hban].
  split.
  - destruct (Hkick eq_refl) as (_ & _ & e & Hsent & _ & Hreason & Hid).
    exists e. by split_and!.
  - destruct (Hban eq_refl) as (Hrows & _). by rewrite Hrows.
Defined.

(** ** Round trips through the ledger *)

(** A row appended under the next id of a well-formed store is what a
    detail lookup of that id finds. *)
Lemma appended_row_detail str_datetime ctx w w1 row :
  store_ok w →
  Infraction.id row = next_id (db w) →
  Infraction.guild_id row = Guild.id (Context.guild ctx) →
  db w1 = {| infraction_db := infraction_db (db w) ++ [row];
             next_id := next_id (db w) + 1 |} →
  ∃ e, infraction_detail str_datetime ctx (next_id (db w)) w1
       = (Returned (), log_sent e w1)
       ∧ shows_record str_datetime w1 row e.
Proof.
  intros Hok Hid Hguild Hdb.
  apply detail_in_scope.
  - unfold primary_key. rewrite Hdb.
    by apply (db_ok_insert (db w) row Hok Hid).
  - rewrite Hdb. simpl. apply elem_of_app. right. by left.
  - by split.
Qed.

(** X9: what note and warn record can be looked up.  In a well-formed store
    the detail of the id that a note or a warning has just reported shows
    that record: its type, the text as given, and [never] as the time of
    the last edit. *)
Theorem recorded_then_detail str_datetime ctx user text w :
  store_ok w →
  (∃ e, infraction_detail str_datetime ctx (next_id (db w)) (note ctx user text w).2
        = (Returned (), log_sent e (note ctx user text w).2)
        ∧ field_value "Type" e = Some "📔 Note"
        ∧ field_value "Reason" e = Some text
        ∧ field_value "Creation" e = Some (str_datetime (utcnow w))
        ∧ field_value "Last edited" e = Some "never")
  ∧ (∃ e, infraction_detail str_datetime ctx (next_id (db w)) (warn ctx user text w).2
          = (Returned (), log_sent e (warn ctx user text w).2)
          ∧ field_value "Type" e = Some "⚠ Warning"
          ∧ field_value "Reason" e = Some text
          ∧ field_value "Creation" e = Some (str_datetime (utcnow w))
          ∧ field_value "Last edited" e = Some "never").
Proof.
  intros Hok. split.
  - destruct (appended_row_detail str_datetime ctx w (note ctx user text w).2
                (new_row w note_t (Guild.id (Context.guild ctx)) (User.id user)
                   (Member.id (Context.author ctx)) text))
      as (e & Hrun & Hshows); [done .. |].
    exists e. split; [exact Hrun |].
    by destruct Hshows as (_ & _ & _ & _ & Htype & Hcreated & Hedited & Hreason & _).
  - destruct (appended_row_detail str_datetime ctx w (warn ctx user text w).2
                (new_row w warning_t (Guild.id (Context.guild ctx)) (User.id user)
                   (Member.id (Context.author ctx)) text))
      as (e & Hrun & Hshows); [done .. |].
    exists e. split; [exact Hrun |].
    by destruct Hshows as (_ & _ & _ & _ & Htype & Hcreated & Hedited & Hreason & _).
Qed.

Lemma store_ok_empty_world : store_ok empty_world.
Proof.
  split; [constructor |]. intros r Hr. by apply not_elem_of_nil in Hr.
Defined.

Lemma recorded_then_detail_witness :
  ∃ e, infraction_detail str_int sample_ctx 1
         (note sample_ctx (sample_user 42 "guy") "likes ducks" empty_world).2
       = (Returned (),
          log_sent e (note sample_ctx (sample_user 42 "guy") "likes ducks"
                        empty_world).2)
       ∧ field_value "Type" e = Some "📔 Note"
       ∧ field_value "Reason" e = Some "likes ducks"
       ∧ field_value "Creation" e = Some (str_int 1000)
       ∧ field_value "Last edited" e = Some "never".
Proof.
  exact (proj1 (recorded_then_detail str_int sample_ctx (sample_user 42 "guy")
                  "likes ducks" empty_world store_ok_empty_world)).
Defined.

(** ** Purge by author, and purges the platform refuses *)

Lemma purge_then_report_removed ctx limit check description w m :
  fault w (ChannelPurge limit) = None →
  (NoDup (history w) →
   m ∈ take (Z.to_nat limit) (history w) →
   m ∉ history ((deleted ← channel_purge limit check;
                 send (purge_report ctx (length deleted) description)) w).2
   ↔ check m = true)
  ∧ (m ∈ drop (Z.to_nat limit) (history w) →
     m ∈ history ((deleted ← channel_purge limit check;
                   send (purge_report ctx (length deleted) description)) w).2).
Proof.
  intros Hf. unfold mbind, Cmd_bind. rewrite (channel_purge_run _ _ _ Hf). simpl.
  split.
  - intros Hnd Hm.
    rewrite <- (take_drop (Z.to_nat limit) (history w)) in Hnd.
    apply NoDup_app in Hnd as (_ & Hold & _).
    rewrite elem_of_app, list_elem_of_filter.
    destruct (check m) eqn:Hc.
    + split; [done |]. intros _ [[Hno _] | Hin]; [done |]. by apply (Hold m).
    + split; [| done]. intros Hgone. exfalso. apply Hgone. left. by split.
  - intros Hm. apply elem_of_app. by right.
Qed.

Lemma existsb_author (author : User.t) (to_purge : list Member.t) :
  existsb (λ p, user_eqb author (Member.user p)) to_purge = true
  ↔ ∃ p, p ∈ to_purge ∧ Member.id p = User.id author.
Proof.
  rewrite existsb_exists. unfold user_eqb, Member.id.
  split; intros (p & Hp & Heq); exists p.
  - apply list_elem_of_In in Hp. by apply bool_decide_eq_true in Heq.
  - split; [by apply list_elem_of_In |]. by apply bool_decide_eq_true.
Qed.

(** X13: purge-by-id and purge-by-user remove by author.  On a purge the
    platform carries out, a message among the scanned ones is gone from the
    channel afterwards exactly when the id of its author is one of the ids
    given (purge-by-id, over the newest 1000) or the id of one of the
    members given (purge-by-user, over the newest [amount]); every message
    older than the scanned ones is kept. *)
Theorem purge_by_author ctx w m :
  (∀ id ids,
     fault w (ChannelPurge 1000) = None →
     (NoDup (history w) →
      m ∈ take 1000 (history w) →
      m ∉ history (purge_id ctx (id :: ids) w).2
      ↔ User.id (Message.author m) ∈ id :: ids)
     ∧ (m ∈ drop 1000 (history w) → m ∈ history (purge_id ctx (id :: ids) w).2))
  ∧ (∀ amount member members,
       fault w (ChannelPurge amount) = None →
       (NoDup (history w) →
        m ∈ take (Z.to_nat amount) (history w) →
        m ∉ history (purge_user ctx amount (member :: members) w).2
        ↔ ∃ p, p ∈ member :: members ∧ Member.id p = User.id (Message.author m))
       ∧ (m ∈ drop (Z.to_nat amount) (history w) →
          m ∈ history (purge_user ctx amount (member :: members) w).2)).
Proof.
  split.
  - intros id ids Hf.
    destruct (purge_then_report_removed ctx 1000
                (λ m, bool_decide (User.id (Message.author m) ∈ id :: ids))
                (Some ("Affected IDs: " +:+ "`"
                         +:+ str_join "`, `" (str_int <$> id :: ids) +:+ "`"))
                w m Hf) as [Hgone Hkept].
    split; [| exact Hkept].
    intros Hnd Hm. destruct (Hgone Hnd Hm) as [Hthen Hback].
    split; intros H.
    + exact (bool_decide_eq_true_1 _ (Hthen H)).
    + exact (Hback (bool_decide_eq_true_2 _ H)).
  - intros amount member members Hf.
    destruct (purge_then_report_removed ctx amount
                (λ m, existsb (λ p, user_eqb (Message.author m) (Member.user p))
                        (member :: members))
                (Some ("Affected users: "
                         +:+ str_join ", "
                               ((λ member, "`" +:+ Member.str member +:+ "` (`"
                                             +:+ str_int (Member.id member) +:+ "`)")
                                  <$> member :: members)))
                w m Hf) as [Hgone Hkept].
    split; [| exact Hkept].
    intros Hnd Hm. destruct (Hgone Hnd Hm) as [Hthen Hback].
    split; intros H.
    + exact (proj1 (existsb_author _ _) (Hthen H)).
    + exact (Hback (proj2 (existsb_author _ _) H)).
Qed.

Lemma purge_by_author_witness :
  (sample_message 2 (sample_user 43 "gal") "an X-ray"
   ∉ history (purge_id sample_ctx [43] chat_world).2)
  ∧ (sample_message 1 (sample_user 42 "guy") "hello"
     ∉ history (purge_user sample_ctx 3 [sample_member 42 "guy" 5] chat_world).2).
Proof.
  destruct (purge_by_author sample_ctx chat_world
              (sample_message 2 (sample_user 43 "gal") "an X-ray")) as [Hid _].
  destruct (purge_by_author sample_ctx chat_world
              (sample_message 1 (sample_user 42 "guy") "hello")) as [_ Huser].
  assert (Hnd : NoDup (history chat_world))
    by (apply (bool_decide_unpack _); by vm_compute).
  split.
  - apply (proj1 (Hid 43 [] eq_refl) Hnd).
    + apply (bool_decide_unpack _). by vm_compute.
    + by left.
  - apply (proj1 (Huser 3 (sample_member 42 "guy" 5) [] eq_refl) Hnd).
    + apply (bool_decide_unpack _). by vm_compute.
    + exists (sample_member 42 "guy" 5). split; [by left | reflexivity].
Defined.

Lemma delete_matching_sublist k check (scanned : list Message.t) :
  sublist (delete_matching k check scanned) scanned.
Proof.
  revert k. induction scanned as [| m rest IH]; intros k; simpl; [done |].
  destruct (check m).
  - destruct k; [done |]. by apply sublist_cons.
  - by apply sublist_skip.
Qed.

Lemma delete_matching_keeps k check (scanned : list Message.t) m :
  m ∈ scanned → check m ≠ true → m ∈ delete_matching k check scanned.
Proof.
  revert k. induction scanned as [| x rest IH]; intros k Hm Hc;
    [by apply not_elem_of_nil in Hm |].
  simpl. apply elem_of_cons in Hm as [-> | Hm].
  - destruct (check x); [done | by left].
  - destruct (check x).
    + destruct k; [by right | by apply IH].
    + right. by apply IH.
Qed.

Lemma purge_then_report_refused ctx limit check description w e :
  fault w (ChannelPurge limit) = Some e →
  ∃ h, (deleted ← channel_purge limit check;
        send (purge_report ctx (length deleted) description)) w
       = (Raised e, set_history h w)
       ∧ scans_at_most limit w (set_history h w)
       ∧ (∀ m, m ∈ history w → check m ≠ true → m ∈ h).
Proof.
  intros Hf. unfold mbind, Cmd_bind, channel_purge. rewrite Hf.
  eexists. split; [reflexivity |]. split.
  - eexists. split; [reflexivity |]. apply delete_matching_sublist.
  - intros m Hm Hc.
    rewrite <- (take_drop (Z.to_nat limit) (history w)) in Hm.
    apply elem_of_app in Hm as [Hm | Hm]; apply elem_of_app; [left | by right].
    by apply delete_matching_keeps.
Qed.

(** X14: a purge the platform refuses.  Each purge variant that reaches the
    platform hands the exception of the platform on and sends nothing.
    Messages may be gone by then, but only scanned ones that were to be
    deleted: every message older than the scan window and every scanned
    message that does not satisfy the check of the variant is kept. *)
Theorem purge_refused ctx w e :
  (∀ limit, fault w (ChannelPurge (default 100 limit)) = Some e →
     (purge ctx limit w).1 = Raised e
     ∧ sent (purge ctx limit w).2 = sent w
     ∧ scans_at_most (default 100 limit) w (purge ctx limit w).2)
  ∧ (∀ id ids, fault w (ChannelPurge 1000) = Some e →
       (purge_id ctx (id :: ids) w).1 = Raised e
       ∧ sent (purge_id ctx (id :: ids) w).2 = sent w
       ∧ scans_at_most 1000 w (purge_id ctx (id :: ids) w).2
       ∧ ∀ m, m ∈ history w → User.id (Message.author m) ∉ id :: ids →
              m ∈ history (purge_id ctx (id :: ids) w).2)
  ∧ (∀ amount text, fault w (ChannelPurge amount) = Some e →
       (purge_containing ctx amount text w).1 = Raised e
       ∧ sent (purge_containing ctx amount text w).2 = sent w
       ∧ scans_at_most amount w (purge_containing ctx amount text w).2
       ∧ ∀ m, m ∈ history w → ¬ occurs_in text (Message.content m) →
              m ∈ history (purge_containing ctx amount text w).2)
  ∧ (∀ amount member members, fault w (ChannelPurge amount) = Some e →
       (purge_user ctx amount (member :: members) w).1 = Raised e
       ∧ sent (purge_user ctx amount (member :: members) w).2 = sent w
       ∧ scans_at_most amount w (purge_user ctx amount (member :: members) w).2
       ∧ ∀ m, m ∈ history w →
              (∀ p, p ∈ member :: members → Member.id p ≠ User.id (Message.author m)) →
              m ∈ history (purge_user ctx amount (member :: members) w).2).
Proof.
  split_and!.
  - intros limit Hf. unfold purge.
    destruct (purge_then_report_refused ctx (default 100 limit) (λ _, true) None w e Hf)
      as (h & -> & Hscan & _). by split_and!.
  - intros id ids Hf. unfold purge_id.
    destruct (purge_then_report_refused ctx 1000
                (λ m, bool_decide (User.id (Message.author m) ∈ id :: ids))
                (Some ("Affected IDs: " +:+ "`"
                         +:+ str_join "`, `" (str_int <$> id :: ids) +:+ "`"))
                w e Hf) as (h & -> & Hscan & Hkept).
    split_and!; [done .. |]. intros m Hm Hid. apply Hkept; [done |].
    by rewrite bool_decide_eq_true.
  - intros amount text Hf. unfold purge_containing.
    destruct (purge_then_report_refused ctx amount
                (λ m, str_contains text (Message.content m))
                (Some ("Specified message content: `" +:+ text +:+ "`."))
                w e Hf) as (h & -> & Hscan & Hkept).
    split_and!; [done .. |]. intros m Hm Hno. apply Hkept; [done |].
    by rewrite str_contains_occurs.
  - intros amount member members Hf. unfold purge_user.
    destruct (purge_then_report_refused ctx amount
                (λ m, existsb (λ p, user_eqb (Message.author m) (Member.user p))
                        (member :: members))
                (Some ("Affected users: "
                         +:+ str_join ", "
                               ((λ member, "`" +:+ Member.str member +:+ "` (`"
                                             +:+ str_int (Member.id member) +:+ "`)")
                                  <$> member :: members)))
                w e Hf) as (h & -> & Hscan & Hkept).
    split_and!; [done .. |]. intros m Hm Hno. apply Hkept; [done |].
    rewrite existsb_author. intros (p & Hp & Heq). by apply (Hno p).
Qed.

Lemma purge_refused_witness :
  (purge_id sample_ctx [42] refusing_chat_world).1 = Raised NotFound
  ∧ sample_message 2 (sample_user 43 "gal") "an X-ray"
    ∈ history (purge_id sample_ctx [42] refusing_chat_world).2.
Proof.
  destruct (purge_refused sample_ctx refusing_chat_world NotFound)
    as (_ & Hid & _).
  destruct (Hid 42 [] eq_refl) as (Hraised & _ & _ & Hkept).
  split; [exact Hraised |]. apply Hkept.
  - apply list_elem_of_further, list_elem_of_here.
  - apply (bool_decide_unpack _). by vm_compute.
Defined.

(** On [refusing_chat_world] the purge of user 42 raises with the newest of
    the two messages of that user gone and the older one still there. *)
Example purge_refused_part_way :
  Message.id <$> history (purge_id sample_ctx [42] refusing_chat_world).2 = [2; 1].
Proof. reflexivity. Qed.

(** ** Listing, continued *)

(** X15: what the listing selects.  The rows listed are the rows of the
    invoking guild, all of them when no type is asked for and otherwise
    those whose type is among the types asked for, each as often as the
    table has it, in ascending order of creation. *)
Theorem list_query_selects ctx types w :
  rows_of (list_query ctx types).1 w
    ≡ₚ filter (λ r, Infraction.guild_id r = Guild.id (Context.guild ctx)
                    ∧ (types = [] ∨ Infraction.type r ∈ types))
         (infraction_db (db w))
  ∧ StronglySorted (by_key Infraction.created_on) (rows_of (list_query ctx types).1 w).
Proof.
  destruct types as [| t types]; simpl.
  - destruct (db_select_order_by_sorted
                (λ r, bool_decide (Infraction.guild_id r = Guild.id (Context.guild ctx)))
                Infraction.created_on w) as [Hperm Hsorted].
    split; [| exact Hsorted]. rewrite Hperm.
    erewrite list_filter_iff; [reflexivity |].
    intros r. simpl. rewrite bool_decide_eq_true. tauto.
  - destruct (db_select_order_by_sorted
                (λ r, bool_decide (Infraction.guild_id r = Guild.id (Context.guild ctx))
                      && bool_decide (Infraction.type r ∈ t :: types))
                Infraction.created_on w) as [Hperm Hsorted].
    split; [| exact Hsorted]. rewrite Hperm.
    erewrite list_filter_iff; [reflexivity |].
    intros r. simpl. rewrite andb_true_iff, !bool_decide_eq_true.
    split; [tauto |]. intros [Hg [Hnil | Hin]]; [discriminate | done].
Qed.

Lemma resolved_line_cons str_datetime u r :
  ∃ c rest, resolved_line str_datetime u r = String c rest.
Proof. unfold resolved_line. eexists _, _. rewrite append_cons. reflexivity. Qed.

Lemma str_join_cons (sep : string) (c : ascii) (rest : string) (lines : list string) :
  ∃ rest', str_join sep (String c rest :: lines) = String c rest'.
Proof.
  destruct lines as [| line lines]; simpl; [by eexists |].
  rewrite append_cons. by eexists.
Qed.

(** X16: when the listing reports.  [infraction_list] returns exactly when
    the user of every row listed is in the cache, and raises otherwise.
    When it returns it has sent one blue embed whose description is the
    placeholder if no row is listed and otherwise the lines, one per row in
    the order of the rows, joined by newlines. *)
Theorem list_reports_iff_resolved str_datetime ctx types w :
  ((infraction_list str_datetime ctx types w).1 = Returned ()
   ↔ ∀ r, r ∈ rows_of (list_query ctx types).1 w →
          is_Some (users w !! Infraction.user_id r))
  ∧ ((∀ r, r ∈ rows_of (list_query ctx types).1 w →
           is_Some (users w !! Infraction.user_id r)) →
     ∃ lines,
       sent (infraction_list str_datetime ctx types w).2
       = sent w ++ [Embed.make (list_query ctx types).2
                      (Some (match rows_of (list_query ctx types).1 w with
                             | [] => nothing_here_yet
                             | _ :: _ => str_join nl lines
                             end))
                      blue]
       ∧ length lines = length (rows_of (list_query ctx types).1 w)
       ∧ Forall2 (λ r line, ∃ u, users w !! Infraction.user_id r = Some u
                                 ∧ line = resolved_line str_datetime u r)
           (rows_of (list_query ctx types).1 w) lines).
Proof.
  assert (Hres : (∀ r, r ∈ rows_of (list_query ctx types).1 w →
                       is_Some (users w !! Infraction.user_id r)) →
                 ∃ lines,
                   infraction_list str_datetime ctx types w
                   = (Returned (),
                      log_sent (Embed.make (list_query ctx types).2
                                  (Some (match rows_of (list_query ctx types).1 w with
                                         | [] => nothing_here_yet
                                         | _ :: _ => str_join nl lines
                                         end))
                                  blue) w)
                   ∧ Forall2 (λ r line, ∃ u, users w !! Infraction.user_id r = Some u
                                             ∧ line = resolved_line str_datetime u r)
                       (rows_of (list_query ctx types).1 w) lines).
  { intros Hall.
    destruct (infraction_list_resolved str_datetime ctx types w Hall)
      as (lines & Hrun & Hlines & _).
    exists lines. split; [| exact Hlines]. rewrite Hrun.
    destruct Hlines as [| r line rows lines' (u & _ & ->) _]; [reflexivity |].
    destruct (resolved_line_cons str_datetime u r) as (c & rest & ->).
    destruct (str_join_cons nl c rest lines') as [rest' ->]. reflexivity. }
  split.
  - split.
    + intros Hret.
      destruct (decide (Forall (λ r, is_Some (users w !! Infraction.user_id r))
                          (rows_of (list_query ctx types).1 w))) as [Hall | Hnot].
      * by apply Forall_forall.
      * apply not_Forall_Exists in Hnot; [| apply _].
        apply Exists_exists in Hnot as (r & Hr & Hu).
        apply eq_None_not_Some in Hu.
        rewrite (infraction_list_unresolved _ _ _ _ r Hr Hu) in Hret. discriminate.
    + intros Hall. by destruct (Hres Hall) as (lines & -> & _).
  - intros Hall. destruct (Hres Hall) as (lines & Hrun & Hlines).
    exists lines. rewrite Hrun. split; [reflexivity |].
    split; [| exact Hlines]. symmetry. by eapply Forall2_length.
Qed.

Lemma list_reports_iff_resolved_witness :
  ∃ lines,
    sent (infraction_list str_int sample_ctx [note_t; ban_t] resolved_world).2
    = [Embed.make (list_query sample_ctx [note_t; ban_t]).2
         (Some (str_join nl lines)) blue]
    ∧ length lines = 1%nat.
Proof.
  destruct (proj2 (list_reports_iff_resolved str_int sample_ctx [note_t; ban_t]
                     resolved_world))
    as (lines & Hsent & Hlen & _).
  { intros r Hr. vm_compute in Hr.
    apply list_elem_of_singleton in Hr as ->. by eexists. }
  exists lines. split; [exact Hsent | exact Hlen].
Defined.

Example infraction_list_resolved_example :
  sent (infraction_list str_int sample_ctx [] resolved_world).2
  = [ Embed.make "All infractions on ducks"
        (Some "• [`1`] 📔 on `guy#1337` (`42`) created 500") blue ].
Proof. reflexivity. Qed.
